(** * emailux: the Clerk webhook handlers

    A shallow embedding of the three revisions of the webhook route
    ([POST] in each of the three documents of [src/unnamed/part_000]):
    the zod schemas, the construction of [userData], the Prisma upserts
    on the [user] and [userEmail] tables, and the [try]/[catch] of each
    handler.

    What is outside the sources is a field of the class [Externals]:
    zod's [email] and [url] string checks, zod's rendering of the
    issues of a rejected payload, the defaults of the columns of the
    [user] table, and the conditions under which the store rejects an
    operation.  [console.log] and [console.error] have no effect on
    responses or on the store and are not modelled.  JSON numbers are
    integers (the provider sends epoch milliseconds). *)

From stdpp Require Import gmap strings list fin_maps.
From Stdlib Require Import ZArith.

Local Open Scope Z_scope.
Local Set Warnings "-register-all".

(** ** JavaScript values *)

(** A value produced by [JSON.parse].  An object is the list of its own
    properties; a parsed object has each key once. *)
Inductive Json : Type :=
| JNull
| JBool (b : bool)
| JNum (n : Z)
| JStr (s : string)
| JArr (items : list Json)
| JObj (props : list (string * Json)).

(** A typed value that may be [undefined] or [null]. *)
Inductive nullish (A : Type) : Type :=
| Undefined
| Null
| Val (a : A).
Arguments Undefined {A}.
Arguments Null {A}.
Arguments Val {A} a.

(** [a ?? b]: [b] when [a] is [null] or [undefined], else [a]. *)
Definition coalesce {A} (a b : nullish A) : nullish A :=
  match a with
  | Val _ => a
  | _ => b
  end.
Notation "a ?? b" := (coalesce a b) (at level 61, left associativity).

(** [o?.f]: [undefined] when the object [o] is [undefined]. *)
Definition opt_chain {A B} (o : option A) (f : A → nullish B) : nullish B :=
  match o with
  | Some a => f a
  | None => Undefined
  end.
Notation "o ?. f" := (opt_chain o f) (at level 59, left associativity).

(** Own property [k] of an object; [None] is [undefined]. *)
Fixpoint get_prop (k : string) (props : list (string * Json)) : option Json :=
  match props with
  | [] => None
  | (k', v) :: rest => if decide (k = k') then Some v else get_prop k rest
  end.

(** [v.k] for a value [v] that is not nullish and a key [k] that no
    prototype defines. *)
Definition js_get (v : Json) (k : string) : option Json :=
  match v with
  | JObj props => get_prop k props
  | _ => None
  end.

(** [new Date(n)]: the time value is clipped, beyond 8.64e15 ms the date
    is invalid. *)
Inductive Date : Type :=
| DateMs (ms : Z)
| InvalidDate.

Definition new_Date (n : Z) : Date :=
  if Z.abs n <=? 8640000000000000 then DateMs n else InvalidDate.

(** ** The validated payload *)

Module Verification.
Record t : Type := mk { status : string; strategy : string }.
End Verification.

Module EmailAddress.
Record t : Type := mk {
  email_address : string;
  id : string;
  verification : Verification.t }.
End EmailAddress.

Module ExternalAccount.
Record t : Type := mk {
  email_address : string;
  given_name : nullish string;
  family_name : nullish string;
  picture : nullish string;
  approved_scopes : string;
  google_id : nullish string }.
End ExternalAccount.

Module RawUser.
Record t : Type := mk {
  id : string;
  email_addresses : list EmailAddress.t;
  external_accounts : option (list ExternalAccount.t);
  first_name : nullish string;
  last_name : nullish string;
  image_url : nullish string;
  created_at : Z;
  updated_at : Z;
  banned : bool;
  external_id : nullish string }.
End RawUser.

Module IncomingEvent.
Record t : Type := mk { data : RawUser.t; type : string }.
End IncomingEvent.

(** ** zod *)

(** A schema run on a value ([None]: the key is absent); [None] as a
    result is a failed [safeParse]. *)
Definition Schema (T : Type) : Type := option Json → option T.

Definition z_string : Schema string := λ v,
  match v with
  | Some (JStr s) => Some s
  | _ => None
  end.

Definition z_number : Schema Z := λ v,
  match v with
  | Some (JNum n) => Some n
  | _ => None
  end.

Definition z_boolean : Schema bool := λ v,
  match v with
  | Some (JBool b) => Some b
  | _ => None
  end.

(** [.email()] and [.url()]: a check on a string that parsed. *)
Definition z_refine (check : string → bool) (s : Schema string) : Schema string := λ v,
  match s v with
  | Some x => if check x then Some x else None
  | None => None
  end.

Definition z_nullable {T} (s : Schema T) : Schema (nullish T) := λ v,
  match v with
  | Some JNull => Some Null
  | _ => Val <$> s v
  end.

Definition z_optional {T} (s : Schema T) : Schema (nullish T) := λ v,
  match v with
  | None => Some Undefined
  | Some _ => Val <$> s v
  end.

(** [s.nullable().optional()]. *)
Definition z_nullable_optional {T} (s : Schema T) : Schema (nullish T) := λ v,
  match v with
  | None => Some Undefined
  | Some _ => z_nullable s v
  end.

(** [z.array(s).optional()] keeps the array or [undefined]. *)
Definition z_optional_array {T} (s : Schema (list T)) : Schema (option (list T)) := λ v,
  match v with
  | None => Some None
  | Some _ => Some <$> s v
  end.

Definition z_array {T} (s : Schema T) : Schema (list T) := λ v,
  match v with
  | Some (JArr items) => mapM (λ x, s (Some x)) items
  | _ => None
  end.

(** [z.object]: the value must be an object; unknown keys are dropped. *)
Definition z_object {T} (shape : list (string * Json) → option T) : Schema T := λ v,
  match v with
  | Some (JObj props) => shape props
  | _ => None
  end.

(** ** Untyped values, for the handler that does not validate *)

(** [!v] is false *)
Definition truthy (v : option Json) : bool :=
  match v with
  | None | Some JNull => false
  | Some (JBool b) => b
  | Some (JNum n) => negb (n =? 0)
  | Some (JStr s) => negb (bool_decide (s = ""))
  | Some (JArr _) | Some (JObj _) => true
  end.

(** [typeof v === "object"] *)
Definition typeof_object (v : option Json) : bool :=
  match v with
  | Some JNull | Some (JArr _) | Some (JObj _) => true
  | _ => false
  end.

(** [v?.[0]] *)
Definition opt_index0 (v : option Json) : option Json :=
  match v with
  | None | Some JNull => None
  | Some (JArr items) => head items
  | Some (JStr (String c _)) => Some (JStr (String c EmptyString))
  | Some (JObj props) => get_prop "0" props
  | Some _ => None
  end.

(** [v?.k] *)
Definition opt_get (v : option Json) (k : string) : option Json :=
  match v with
  | None | Some JNull => None
  | Some x => js_get x k
  end.

(** Prisma's client checks an argument against the type of its column
    before anything is sent: [undefined], [null] and a string pass for a
    string column, any other value makes the call throw a
    [PrismaClientValidationError], which is an [Error] and not a known
    request error. *)
Definition prisma_String (v : option Json) : option (nullish string) :=
  match v with
  | None => Some Undefined
  | Some JNull => Some Null
  | Some (JStr s) => Some (Val s)
  | Some _ => None
  end.

(** ** Prisma: the tables and the arguments of an upsert *)

(** The [data] object of a write on [user] ([update] and [create] take
    the same shape).  A key that is absent or [undefined] leaves its
    column alone; [null] is a value a nullable column takes. *)
Module UserInput.
Record t : Type := mk {
  id : option string;
  emailAddress : option string;
  firstName : nullish string;
  lastName : nullish string;
  imageUrl : nullish string;
  emailVerified : option bool;
  createdAtClerk : option Date;
  updatedAtClerk : option Date;
  banned : option bool;
  externalId : nullish string;
  oauthProvider : nullish string;
  oauthId : nullish string;
  oauthScopes : nullish string }.
End UserInput.

(** Modelled from the spec: a row of the [user] table (section 3,
    CanonicalUser); the Prisma schema that declares the table is not
    among the sources.  A nullable column holds [None] for NULL. *)
Module User.
Record t : Type := mk {
  id : string;
  emailAddress : string;
  firstName : option string;
  lastName : option string;
  imageUrl : option string;
  emailVerified : bool;
  createdAtClerk : Date;
  updatedAtClerk : Date;
  banned : bool;
  externalId : option string;
  oauthProvider : option string;
  oauthId : option string;
  oauthScopes : option string }.
End User.

(** Modelled from the spec: a row of the [userEmail] table (section 3,
    CanonicalEmail), which is also the [create] object of its upsert. *)
Module UserEmail.
Record t : Type := mk {
  id : string;
  userId : string;
  emailAddress : string;
  verificationStatus : string;
  verificationStrategy : string }.
End UserEmail.

(** The [update] object of the upsert on [userEmail] (lines 116-120). *)
Module UserEmailUpdate.
Record t : Type := mk {
  emailAddress : string;
  verificationStatus : string;
  verificationStrategy : string }.
End UserEmailUpdate.

Record Store : Type := mkStore {
  users : gmap string User.t;
  userEmails : gmap string UserEmail.t }.

(** The operations a handler issues. *)
Inductive DbOp : Type :=
| UserUpsert (where_id : string) (update create : UserInput.t)
| UserEmailUpsert (where_id : string) (update : UserEmailUpdate.t) (create : UserEmail.t).

(** What [await] can throw into the [catch] block. *)
Inductive Thrown : Type :=
| PrismaClientKnownRequestError (code message : string)
| Error (message : string)
| NotAnError.

Definition set_column {A} (new : option A) (old : A) : A :=
  match new with
  | Some a => a
  | None => old
  end.

Definition set_nullable {A} (new : nullish A) (old : option A) : option A :=
  match new with
  | Undefined => old
  | Null => None
  | Val a => Some a
  end.

(** A write of [data] over the row [old]. *)
Definition write_user (data : UserInput.t) (old : User.t) : User.t :=
  {| User.id := set_column (UserInput.id data) (User.id old);
     User.emailAddress := set_column (UserInput.emailAddress data) (User.emailAddress old);
     User.firstName := set_nullable (UserInput.firstName data) (User.firstName old);
     User.lastName := set_nullable (UserInput.lastName data) (User.lastName old);
     User.imageUrl := set_nullable (UserInput.imageUrl data) (User.imageUrl old);
     User.emailVerified := set_column (UserInput.emailVerified data) (User.emailVerified old);
     User.createdAtClerk := set_column (UserInput.createdAtClerk data) (User.createdAtClerk old);
     User.updatedAtClerk := set_column (UserInput.updatedAtClerk data) (User.updatedAtClerk old);
     User.banned := set_column (UserInput.banned data) (User.banned old);
     User.externalId := set_nullable (UserInput.externalId data) (User.externalId old);
     User.oauthProvider := set_nullable (UserInput.oauthProvider data) (User.oauthProvider old);
     User.oauthId := set_nullable (UserInput.oauthId data) (User.oauthId old);
     User.oauthScopes := set_nullable (UserInput.oauthScopes data) (User.oauthScopes old) |}.

Definition write_userEmail (data : UserEmailUpdate.t) (old : UserEmail.t) : UserEmail.t :=
  {| UserEmail.id := UserEmail.id old;
     UserEmail.userId := UserEmail.userId old;
     UserEmail.emailAddress := UserEmailUpdate.emailAddress data;
     UserEmail.verificationStatus := UserEmailUpdate.verificationStatus data;
     UserEmail.verificationStrategy := UserEmailUpdate.verificationStrategy data |}.

(** ** Responses *)

Inductive Body : Type :=
| Text (s : string)
| Stringify (j : Json).

Record Response : Type := mkResponse {
  status : Z;
  body : Body }.

Inductive Request : Type :=
| NoBody                   (* [req.body] is null *)
| Unparsable (e : Thrown)  (* [req.json()] rejects *)
| WithBody (rawBody : Json).

(** ** What the handlers take from outside the sources *)

Class Externals : Type := {
  (** zod's [.email()] and [.url()] checks *)
  is_email : string → bool;
  is_url : string → bool;
  (** zod's [error.format()] and [error.errors] for a rejected payload *)
  zod_format : Json → Json;
  zod_errors : Json → Json;
  (** Modelled from the spec: the values a created [user] row takes in
      the columns its [create] object leaves out (the Prisma schema is
      not among the sources). *)
  user_defaults : User.t;
  (** the store rejecting an operation: a constraint of the schema, a
      lost connection, an argument it refuses *)
  db_fault : Store → DbOp → option Thrown }.

(** ** The handler's effects: a store, the operations issued, a throw *)

Inductive Res (A : Type) : Type :=
| Ok (a : A) (st : Store) (ops : list DbOp)
| Throw (e : Thrown) (st : Store) (ops : list DbOp).
Arguments Ok {A} a st ops.
Arguments Throw {A} e st ops.

(** A computation started on a store: it ends with a value or a thrown
    error, the store it leaves, and the operations it sent. *)
Definition DB (A : Type) : Type := Store → Res A.

Definition db_ret {A} (a : A) : DB A := λ st, Ok a st [].

Definition db_throw {A} (e : Thrown) : DB A := λ st, Throw e st [].

Definition db_bind {A B} (m : DB A) (f : A → DB B) : DB B := λ st,
  match m st with
  | Ok a st1 ops1 =>
      match f a st1 with
      | Ok b st2 ops2 => Ok b st2 (ops1 ++ ops2)
      | Throw e st2 ops2 => Throw e st2 (ops1 ++ ops2)
      end
  | Throw e st1 ops1 => Throw e st1 ops1
  end.

Notation "'let*' x := m 'in' k" := (db_bind m (λ x, k))
  (at level 10, x name, m at level 100, k at level 200, only parsing).
Notation "m ;;; k" := (db_bind m (λ _, k))
  (at level 100, k at level 200, right associativity, only parsing).

(** [for (const x of l) { await body(x) }] *)
Fixpoint for_of {A} (l : list A) (body : A → DB unit) : DB unit :=
  match l with
  | [] => db_ret tt
  | x :: rest => body x ;;; for_of rest body
  end.

(** [try { ... } catch (error) { ... }] around a body that returns a
    response: what is thrown is turned into a response, the store is
    left as the throw found it. *)
Definition try_catch (body : DB Response) (handler : Thrown → Response)
  (st : Store) : Response * Store * list DbOp :=
  match body st with
  | Ok r st' ops => (r, st', ops)
  | Throw e st' ops => (handler e, st', ops)
  end.

(** [prismaErrors] (lines 145-150): the own keys of the object
    literal. *)
Definition prismaErrors : list (string * (Z * string)) :=
  [ ("P2002", (409, "Resource already exists"));
    ("P2014", (400, "Invalid ID provided"));
    ("P2003", (400, "Foreign key constraint failed")) ].

Fixpoint record_get {V} (k : string) (r : list (string * V)) : option V :=
  match r with
  | [] => None
  | (k', v) :: rest => if decide (k = k') then Some v else record_get k rest
  end.

(** The keys a plain object inherits from [Object.prototype].  Indexing
    [prismaErrors] with one of them finds the inherited value, a
    function or the prototype itself, which is not nullish and has
    neither a [status] nor a [message]. *)
Definition Object_prototype_keys : list string :=
  [ "constructor"; "__defineGetter__"; "__defineSetter__"; "hasOwnProperty";
    "__lookupGetter__"; "__lookupSetter__"; "isPrototypeOf";
    "propertyIsEnumerable"; "toString"; "valueOf"; "__proto__";
    "toLocaleString" ].

(** [errorInfo] (line 152): [prismaErrors[error.code] ?? { status: 500,
    message: "Database error occurred" }], as its [status] and its
    [message], each [None] when [undefined].  The lookup goes through
    the prototype chain, and [??] keeps whatever it finds there. *)
Definition errorInfo (code : string) : option Z * option string :=
  match record_get code prismaErrors with
  | Some (status, message) => (Some status, Some message)
  | None =>
      if decide (code ∈ Object_prototype_keys)
      then (None, None)
      else (Some 500, Some "Database error occurred")
  end.

(** [new Response(body, { status })]: an [undefined] status is the
    default, 200. *)
Definition init_status (status : option Z) : Z :=
  match status with
  | Some n => n
  | None => 200
  end.

(** [JSON.stringify] of an object literal: a key whose value is
    [undefined] is left out. *)
Definition stringify_object (fields : list (string * option Json)) : Body :=
  Stringify (JObj (omap (λ field, match field.2 with
                                  | Some v => Some (field.1, v)
                                  | None => None
                                  end) fields)).

(** [error instanceof Error ? error.message : "Unknown error occurred"] *)
Definition error_message (e : Thrown) : string :=
  match e with
  | PrismaClientKnownRequestError _ message => message
  | Error message => message
  | NotAnError => "Unknown error occurred"
  end.

(** The [catch] block of the first document (lines 141-181). *)
Definition catch_block (e : Thrown) : Response :=
  match e with
  | PrismaClientKnownRequestError code message =>
      mkResponse (init_status (errorInfo code).1)
        (stringify_object [ ("error", JStr <$> (errorInfo code).2);
                            ("code", Some (JStr code));
                            ("details", Some (JStr message)) ])
  | _ =>
      mkResponse 500
        (Stringify (JObj [ ("error", JStr "Internal server error");
                           ("message", JStr (error_message e)) ]))
  end.

(** The [catch] block of the second document (lines 232-245). *)
Definition catch_block2 (e : Thrown) : Response :=
  match e with
  | PrismaClientKnownRequestError code _ =>
      if decide (code = "P2002")
      then mkResponse 409 (Text "User already exists")
      else mkResponse 500 (Text "Internal server error")
  | _ => mkResponse 500 (Text "Internal server error")
  end.

(** The [catch] block of the third document (lines 399-439). *)
Definition catch_block3 (e : Thrown) : Response :=
  match e with
  | PrismaClientKnownRequestError code _ =>
      mkResponse (init_status (errorInfo code).1)
        (stringify_object [ ("error", JStr <$> (errorInfo code).2);
                            ("code", Some (JStr code)) ])
  | _ =>
      mkResponse 500
        (Stringify (JObj [ ("error", JStr "Internal server error");
                           ("message", JStr (error_message e)) ]))
  end.

Section Handlers.

Context {ext : Externals}.

(** *** The schemas *)

Definition verificationSchema : Schema Verification.t :=
  z_object (λ o,
    status ← z_string (get_prop "status" o);
    strategy ← z_string (get_prop "strategy" o);
    Some (Verification.mk status strategy)).

Definition emailAddressSchema : Schema EmailAddress.t :=
  z_object (λ o,
    email_address ← z_refine is_email z_string (get_prop "email_address" o);
    id ← z_string (get_prop "id" o);
    verification ← verificationSchema (get_prop "verification" o);
    Some (EmailAddress.mk email_address id verification)).

(** The element of [external_accounts]; [name] is the schema of
    [given_name] and of [family_name], where the revisions differ. *)
Definition externalAccountSchema (name : Schema (nullish string))
  : Schema ExternalAccount.t :=
  z_object (λ o,
    email_address ← z_refine is_email z_string (get_prop "email_address" o);
    given_name ← name (get_prop "given_name" o);
    family_name ← name (get_prop "family_name" o);
    picture ← z_optional (z_refine is_url z_string) (get_prop "picture" o);
    approved_scopes ← z_string (get_prop "approved_scopes" o);
    google_id ← z_optional z_string (get_prop "google_id" o);
    Some (ExternalAccount.mk email_address given_name family_name picture
            approved_scopes google_id)).

Definition dataSchema (name : Schema (nullish string)) : Schema RawUser.t :=
  z_object (λ o,
    id ← z_string (get_prop "id" o);
    email_addresses ← z_array emailAddressSchema (get_prop "email_addresses" o);
    external_accounts ← z_optional_array (z_array (externalAccountSchema name))
                          (get_prop "external_accounts" o);
    first_name ← z_nullable z_string (get_prop "first_name" o);
    last_name ← z_nullable z_string (get_prop "last_name" o);
    image_url ← z_nullable (z_refine is_url z_string) (get_prop "image_url" o);
    created_at ← z_number (get_prop "created_at" o);
    updated_at ← z_number (get_prop "updated_at" o);
    banned ← z_boolean (get_prop "banned" o);
    external_id ← z_nullable z_string (get_prop "external_id" o);
    Some (RawUser.mk id email_addresses external_accounts first_name last_name
            image_url created_at updated_at banned external_id)).

Definition eventSchema (name : Schema (nullish string)) : Schema IncomingEvent.t :=
  z_object (λ o,
    data ← dataSchema name (get_prop "data" o);
    type ← z_string (get_prop "type" o);
    Some (IncomingEvent.mk data type)).

(** [webhookSchema] of the first document (lines 6-40): the names of an
    external account are nullable and optional. *)
Definition webhookSchema : Schema IncomingEvent.t :=
  eventSchema (z_nullable_optional z_string).

(** [webhookSchema] of the third document (lines 271-305): the names of
    an external account are nullable and required. *)
Definition webhookSchema3 : Schema IncomingEvent.t :=
  eventSchema (z_nullable z_string).

(** *** Prisma's upserts *)

(** Insert or update by primary key on [user]: the row found under
    [where_id] is written over with [update]; when there is none a row
    is made from [create]. *)
Definition user_upsert (where_id : string) (update create : UserInput.t)
  (tbl : gmap string User.t) : User.t * gmap string User.t :=
  match tbl !! where_id with
  | Some old =>
      let row := write_user update old in
      (row, <[User.id row := row]> (delete where_id tbl))
  | None =>
      let row := write_user create user_defaults in
      (row, <[User.id row := row]> tbl)
  end.

Definition userEmail_upsert (where_id : string) (update : UserEmailUpdate.t)
  (create : UserEmail.t) (tbl : gmap string UserEmail.t)
  : UserEmail.t * gmap string UserEmail.t :=
  match tbl !! where_id with
  | Some old =>
      let row := write_userEmail update old in
      (row, <[where_id := row]> tbl)
  | None => (create, <[UserEmail.id create := create]> tbl)
  end.

(** [await db.user.upsert({ where: { id }, update, create })] *)
Definition db_user_upsert (where_id : string) (update create : UserInput.t)
  : DB User.t := λ st,
  let op := UserUpsert where_id update create in
  match db_fault st op with
  | Some e => Throw e st [op]
  | None =>
      let '(row, tbl) := user_upsert where_id update create (users st) in
      Ok row (mkStore tbl (userEmails st)) [op]
  end.

(** [await db.userEmail.upsert({ where: { id }, update, create })] *)
Definition db_userEmail_upsert (where_id : string) (update : UserEmailUpdate.t)
  (create : UserEmail.t) : DB UserEmail.t := λ st,
  let op := UserEmailUpsert where_id update create in
  match db_fault st op with
  | Some e => Throw e st [op]
  | None =>
      let '(row, tbl) := userEmail_upsert where_id update create (userEmails st) in
      Ok row (mkStore (users st) tbl) [op]
  end.

(** *** The first and the third document *)

(** [externalAccount] (line 81): [data.external_accounts?.[0]]. *)
Definition externalAccount (data : RawUser.t) : option ExternalAccount.t :=
  match RawUser.external_accounts data with
  | Some accounts => head accounts
  | None => None
  end.

(** [userData] (lines 84-98; the same text at lines 349-364). *)
Definition userData (data : RawUser.t) (primaryEmail : EmailAddress.t) : UserInput.t :=
  let externalAccount := externalAccount data in
  {| UserInput.id := Some (RawUser.id data);
     UserInput.emailAddress := Some (EmailAddress.email_address primaryEmail);
     UserInput.firstName :=
       RawUser.first_name data ?? externalAccount ?. ExternalAccount.given_name ?? Null;
     UserInput.lastName :=
       RawUser.last_name data ?? externalAccount ?. ExternalAccount.family_name ?? Null;
     UserInput.imageUrl :=
       RawUser.image_url data ?? externalAccount ?. ExternalAccount.picture ?? Null;
     UserInput.emailVerified :=
       Some (bool_decide (Verification.status (EmailAddress.verification primaryEmail)
                          = "verified"));
     UserInput.createdAtClerk := Some (new_Date (RawUser.created_at data));
     UserInput.updatedAtClerk := Some (new_Date (RawUser.updated_at data));
     UserInput.banned := Some (RawUser.banned data);
     UserInput.externalId := RawUser.external_id data;
     UserInput.oauthProvider :=
       match externalAccount with
       | Some _ => Val "google"
       | None => Null
       end;
     UserInput.oauthId := externalAccount ?. ExternalAccount.google_id ?? Null;
     UserInput.oauthScopes :=
       externalAccount ?. (λ a, Val (ExternalAccount.approved_scopes a)) ?? Null |}.

(** The [update] and [create] objects of one email (lines 116-127). *)
Definition email_update (email : EmailAddress.t) : UserEmailUpdate.t :=
  {| UserEmailUpdate.emailAddress := EmailAddress.email_address email;
     UserEmailUpdate.verificationStatus :=
       Verification.status (EmailAddress.verification email);
     UserEmailUpdate.verificationStrategy :=
       Verification.strategy (EmailAddress.verification email) |}.

Definition email_create (data : RawUser.t) (email : EmailAddress.t) : UserEmail.t :=
  {| UserEmail.id := EmailAddress.id email;
     UserEmail.userId := RawUser.id data;
     UserEmail.emailAddress := EmailAddress.email_address email;
     UserEmail.verificationStatus :=
       Verification.status (EmailAddress.verification email);
     UserEmail.verificationStrategy :=
       Verification.strategy (EmailAddress.verification email) |}.

(** The loop of lines 113-129 (and of lines 374-390). *)
Definition store_emails (data : RawUser.t) : DB unit :=
  for_of (RawUser.email_addresses data) (λ email,
    db_userEmail_upsert (EmailAddress.id email) (email_update email)
      (email_create data email) ;;;
    db_ret tt).

(** The [try] block of the first document (lines 43-140). *)
Definition POST_try (req : Request) : DB Response :=
  match req with
  | NoBody => db_ret (mkResponse 400 (Text "Missing request body"))
  | Unparsable e => db_throw e
  | WithBody rawBody =>
      match webhookSchema (Some rawBody) with
      | None =>
          db_ret (mkResponse 400
            (Stringify (JObj [ ("error", JStr "Invalid webhook payload");
                               ("details", zod_format rawBody) ])))
      | Some validatedData =>
          let data := IncomingEvent.data validatedData in
          match head (RawUser.email_addresses data) with
          | None => db_ret (mkResponse 400 (Text "No email address found"))
          | Some primaryEmail =>
              let userData := userData data primaryEmail in
              let* updatedUser := db_user_upsert (RawUser.id data) userData userData in
              store_emails data ;;;
              db_ret (mkResponse 200
                (Stringify (JObj [ ("message", JStr "Webhook processed successfully");
                                   ("userId", JStr (User.id updatedUser)) ])))
          end
      end
  end.

(** [POST] of the first document: the response, the store it leaves and
    the operations it sent, in order. *)
Definition POST (req : Request) (st : Store) : Response * Store * list DbOp :=
  try_catch (POST_try req) catch_block st.

(** The [try] block of the third document (lines 308-398). *)
Definition POST3_try (req : Request) : DB Response :=
  match req with
  | NoBody => db_ret (mkResponse 400 (Text "Missing request body"))
  | Unparsable e => db_throw e
  | WithBody rawBody =>
      match webhookSchema3 (Some rawBody) with
      | None =>
          db_ret (mkResponse 400
            (Stringify (JObj [ ("error", JStr "Invalid webhook payload");
                               ("details", zod_errors rawBody) ])))
      | Some validatedData =>
          let data := IncomingEvent.data validatedData in
          match head (RawUser.email_addresses data) with
          | None => db_ret (mkResponse 400 (Text "No email address found"))
          | Some primaryEmail =>
              let userData := userData data primaryEmail in
              db_user_upsert (RawUser.id data) userData userData ;;;
              store_emails data ;;;
              db_ret (mkResponse 200
                (Stringify (JObj [ ("message", JStr "Webhook processed successfully") ])))
          end
      end
  end.

Definition POST3 (req : Request) (st : Store) : Response * Store * list DbOp :=
  try_catch (POST3_try req) catch_block3 st.

(** *** The second document *)

(** The [update] object of lines 216-221. *)
Definition update2 (emailAddress : string) (firstName lastName imageUrl : nullish string)
  : UserInput.t :=
  {| UserInput.id := None;
     UserInput.emailAddress := Some emailAddress;
     UserInput.firstName := firstName ?? Undefined;
     UserInput.lastName := lastName ?? Undefined;
     UserInput.imageUrl := imageUrl ?? Undefined;
     UserInput.emailVerified := None;
     UserInput.createdAtClerk := None;
     UserInput.updatedAtClerk := None;
     UserInput.banned := None;
     UserInput.externalId := Undefined;
     UserInput.oauthProvider := Undefined;
     UserInput.oauthId := Undefined;
     UserInput.oauthScopes := Undefined |}.

(** The [create] object of lines 222-228. *)
Definition create2 (id emailAddress : string) (firstName lastName imageUrl : nullish string)
  : UserInput.t :=
  {| UserInput.id := Some id;
     UserInput.emailAddress := Some emailAddress;
     UserInput.firstName := firstName ?? Null;
     UserInput.lastName := lastName ?? Null;
     UserInput.imageUrl := imageUrl ?? Null;
     UserInput.emailVerified := None;
     UserInput.createdAtClerk := None;
     UserInput.updatedAtClerk := None;
     UserInput.banned := None;
     UserInput.externalId := Undefined;
     UserInput.oauthProvider := Undefined;
     UserInput.oauthId := Undefined;
     UserInput.oauthScopes := Undefined |}.

(** The [try] block of the second document (lines 187-231).  The body is
    not validated: [data] and its fields are whatever the JSON holds. *)
Definition POST2_try (req : Request) : DB Response :=
  match req with
  | NoBody => db_ret (mkResponse 400 (Text "Missing request body"))
  | Unparsable e => db_throw e
  | WithBody JNull => db_throw (Error "Cannot destructure property 'data' of null")
  | WithBody payload =>
      let data := js_get payload "data" in
      if negb (truthy data) || negb (typeof_object data)
      then db_ret (mkResponse 400 (Text "Invalid webhook payload"))
      else
        let emailAddress := opt_get (opt_index0 (opt_get data "email_addresses")) "email_address" in
        let firstName := opt_get data "first_name" in
        let lastName := opt_get data "last_name" in
        let imageUrl := opt_get data "image_url" in
        let id := opt_get data "id" in
        if negb (truthy id) || negb (truthy emailAddress)
        then db_ret (mkResponse 400 (Text "Missing required fields: id and email"))
        else
          match prisma_String id, prisma_String emailAddress, prisma_String firstName,
                prisma_String lastName, prisma_String imageUrl with
          | Some (Val id), Some (Val emailAddress), Some firstName, Some lastName,
            Some imageUrl =>
              db_user_upsert id
                (update2 emailAddress firstName lastName imageUrl)
                (create2 id emailAddress firstName lastName imageUrl) ;;;
              db_ret (mkResponse 200 (Text "Webhook processed successfully"))
          | _, _, _, _, _ => db_throw (Error "PrismaClientValidationError")
          end
  end.

Definition POST2 (req : Request) (st : Store) : Response * Store * list DbOp :=
  try_catch (POST2_try req) catch_block2 st.

End Handlers.

(** ** Sample collaborators and payloads

    Stand-ins for what is outside the sources, used to run the handlers
    on concrete payloads. *)

Definition has_at (s : string) : bool :=
  match String.index 0 "@" s with
  | Some _ => true
  | None => false
  end.

Definition blank_user : User.t :=
  {| User.id := ""; User.emailAddress := "";
     User.firstName := None; User.lastName := None; User.imageUrl := None;
     User.emailVerified := false;
     User.createdAtClerk := DateMs 0; User.updatedAtClerk := DateMs 0;
     User.banned := false; User.externalId := None;
     User.oauthProvider := None; User.oauthId := None; User.oauthScopes := None |}.

(** Collaborators whose store rejects what [fault] says. *)
Definition sample_ext (fault : Store → DbOp → option Thrown) : Externals :=
  {| is_email := has_at;
     is_url := String.prefix "https://";
     zod_format := λ _, JNull;
     zod_errors := λ _, JNull;
     user_defaults := blank_user;
     db_fault := fault |}.

(** A store that accepts every operation. *)
Definition no_fault : Store → DbOp → option Thrown := λ _ _, None.

(** A store that rejects every write on [userEmail] as a broken foreign
    key. *)
Definition email_fault : Store → DbOp → option Thrown := λ _ op,
  match op with
  | UserEmailUpsert _ _ _ =>
      Some (PrismaClientKnownRequestError "P2003" "Foreign key constraint failed")
  | UserUpsert _ _ _ => None
  end.

Definition quiet_ext : Externals := sample_ext no_fault.

Definition strict_ext : Externals := sample_ext email_fault.

Definition empty_store : Store := mkStore ∅ ∅.

Definition sample_email (id address status : string) : Json :=
  JObj [ ("email_address", JStr address);
         ("id", JStr id);
         ("verification",
          JObj [ ("status", JStr status); ("strategy", JStr "from_oauth_google") ]) ].

Definition sample_account : Json :=
  JObj [ ("email_address", JStr "ada@example.com");
         ("given_name", JStr "Ada");
         ("family_name", JNull);
         ("approved_scopes", JStr "email profile");
         ("google_id", JStr "g123") ].

(** The properties of an event for [user_1] with the given [type],
    first name and email entries, and one linked account. *)
Definition sample_props (type : string) (first_name : Json) (emails : list Json)
  : list (string * Json) :=
  [ ("data",
     JObj [ ("id", JStr "user_1");
            ("email_addresses", JArr emails);
            ("external_accounts", JArr [sample_account]);
            ("first_name", first_name);
            ("last_name", JStr "Lovelace");
            ("image_url", JNull);
            ("created_at", JNum 1700000000000);
            ("updated_at", JNum 1700000000500);
            ("banned", JBool false);
            ("external_id", JNull) ]);
    ("type", JStr type) ].

Definition sample_event (type : string) (first_name : Json) (emails : list Json) : Json :=
  JObj (sample_props type first_name emails).

Definition two_emails : list Json :=
  [ sample_email "idn_1" "ada@example.com" "verified";
    sample_email "idn_2" "ada@work.example" "unverified" ].

(** The payload the schemas accept although its [id] is the empty
    string and it has no email address. *)
Definition empty_id_event : Json :=
  JObj [ ("data",
          JObj [ ("id", JStr "");
                 ("email_addresses", JArr []);
                 ("first_name", JNull);
                 ("last_name", JNull);
                 ("image_url", JNull);
                 ("created_at", JNum 0);
                 ("updated_at", JNum 0);
                 ("banned", JBool false);
                 ("external_id", JNull) ]);
         ("type", JStr "user.created") ].

(** A store in which [idn_1] is an email of another user, [user_0]. *)
Definition foreign_email : UserEmail.t :=
  {| UserEmail.id := "idn_1"; UserEmail.userId := "user_0";
     UserEmail.emailAddress := "old@example.com";
     UserEmail.verificationStatus := "unverified";
     UserEmail.verificationStrategy := "email_code" |}.

Definition foreign_email_store : Store := mkStore ∅ {[ "idn_1" := foreign_email ]}.

(** A stored row for [user_1], banned, with a first name and an
    external id. *)
Definition ada_row : User.t :=
  {| User.id := "user_1"; User.emailAddress := "old@example.com";
     User.firstName := Some "Ada"; User.lastName := None;
     User.imageUrl := None; User.emailVerified := true;
     User.createdAtClerk := DateMs 1; User.updatedAtClerk := DateMs 2;
     User.banned := true; User.externalId := Some "ext";
     User.oauthProvider := None; User.oauthId := None;
     User.oauthScopes := None |}.

Definition ada_store : Store := mkStore {[ "user_1" := ada_row ]} ∅.

(** The body the second handler reads: [first_name] is [null]. *)
Definition unnamed_event : Json :=
  JObj [ ("data",
          JObj [ ("id", JStr "user_1");
                 ("email_addresses", JArr [ JObj [ ("email_address", JStr "ada@example.com") ] ]);
                 ("first_name", JNull) ]) ].

(** A store that rejects every write on [user] as an invalid
    reference. *)
Definition user_fault : Store → DbOp → option Thrown := λ _ op,
  match op with
  | UserUpsert _ _ _ => Some (PrismaClientKnownRequestError "P2014" "Invalid relation")
  | UserEmailUpsert _ _ _ => None
  end.

Definition refusing_ext : Externals := sample_ext user_fault.

(** A store that rejects every write on [user] with a code that is a
    key of [Object.prototype]. *)
Definition inherited_fault : Store → DbOp → option Thrown := λ _ op,
  match op with
  | UserUpsert _ _ _ => Some (PrismaClientKnownRequestError "constructor" "rejected")
  | UserEmailUpsert _ _ _ => None
  end.

(** The same email id twice, with two addresses. *)
Definition repeated_emails : list Json :=
  [ sample_email "idn_1" "first@example.com" "unverified";
    sample_email "idn_1" "second@example.com" "verified" ].

(** A second entry whose address fails the email check. *)
Definition malformed_emails : list Json :=
  [ sample_email "idn_1" "ada@example.com" "verified";
    sample_email "idn_2" "not an address" "unverified" ].

(** A store with a row of another user and one of her emails. *)
Definition grace_row : User.t :=
  {| User.id := "user_0"; User.emailAddress := "grace@example.com";
     User.firstName := Some "Grace"; User.lastName := Some "Hopper";
     User.imageUrl := None; User.emailVerified := true;
     User.createdAtClerk := DateMs 5; User.updatedAtClerk := DateMs 6;
     User.banned := false; User.externalId := None;
     User.oauthProvider := None; User.oauthId := None;
     User.oauthScopes := None |}.

Definition grace_email : UserEmail.t :=
  {| UserEmail.id := "idn_9"; UserEmail.userId := "user_0";
     UserEmail.emailAddress := "grace@example.com";
     UserEmail.verificationStatus := "verified";
     UserEmail.verificationStrategy := "email_code" |}.

Definition grace_store : Store :=
  mkStore {[ "user_0" := grace_row ]} {[ "idn_9" := grace_email ]}.

(** Bodies for the second handler: an empty [id], and a numeric one. *)
Definition empty_id_body : Json :=
  JObj [ ("data",
          JObj [ ("id", JStr "");
                 ("email_addresses", JArr [ JObj [ ("email_address", JStr "ada@example.com") ] ]) ]) ].

Definition numeric_id_body : Json :=
  JObj [ ("data",
          JObj [ ("id", JNum 5);
                 ("email_addresses", JArr [ JObj [ ("email_address", JStr "ada@example.com") ] ]) ]) ].

(** ** What the claims speak of *)

(** The precedence of claim C2 in the spec's words: the native value
    when it is not null, else the value of the first external account
    when there is one and it is not null, else null. *)
Definition spec_resolve (native : nullish string)
  (accounts : option (list ExternalAccount.t))
  (field : ExternalAccount.t → nullish string) : nullish string :=
  match native with
  | Val s => Val s
  | _ =>
      match accounts with
      | Some (account :: _) =>
          match field account with
          | Val s => Val s
          | _ => Null
          end
      | _ => Null
      end
  end.

(** The status the spec gives each class of store error. *)
Definition spec_status (code : string) : Z :=
  if decide (code = "P2002") then 409
  else if decide (code = "P2014") then 400
  else if decide (code = "P2003") then 400
  else 500.

(** [data.email_addresses] of a raw body. *)
Definition raw_email_addresses (rawBody : Json) : option Json :=
  opt_get (js_get rawBody "data") "email_addresses".

(** The value a nullable column takes from a field that was set. *)
Definition column_of {A} (v : nullish A) : option A :=
  match v with
  | Val a => Some a
  | _ => None
  end.

(** The operations claim C7 lists for an event. *)
Definition user_op (data : RawUser.t) (primaryEmail : EmailAddress.t) : DbOp :=
  UserUpsert (RawUser.id data) (userData data primaryEmail) (userData data primaryEmail).

Definition email_op (data : RawUser.t) (email : EmailAddress.t) : DbOp :=
  UserEmailUpsert (EmailAddress.id email) (email_update email) (email_create data email).

Section Vocabulary.

Context {ext : Externals}.

Definition optional_url (v : nullish string) : Prop :=
  match v with
  | Undefined => True
  | Null => False
  | Val u => is_url u = true
  end.

Definition nullable_url (v : nullish string) : Prop :=
  match v with
  | Undefined => False
  | Null => True
  | Val u => is_url u = true
  end.

Definition account_typed (a : ExternalAccount.t) : Prop :=
  is_email (ExternalAccount.email_address a) = true
  ∧ optional_url (ExternalAccount.picture a)
  ∧ ExternalAccount.google_id a ≠ Null.

(** What a successful parse of [rawBody] into [ev] guarantees. *)
Definition payload_typed (rawBody : Json) (ev : IncomingEvent.t) : Prop :=
  let data := IncomingEvent.data ev in
  opt_get (js_get rawBody "data") "id" = Some (JStr (RawUser.id data))
  ∧ (∃ items, raw_email_addresses rawBody = Some (JArr items)
              ∧ length items = length (RawUser.email_addresses data))
  ∧ Forall (λ e, is_email (EmailAddress.email_address e) = true)
      (RawUser.email_addresses data)
  ∧ RawUser.first_name data ≠ Undefined
  ∧ RawUser.last_name data ≠ Undefined
  ∧ nullable_url (RawUser.image_url data)
  ∧ RawUser.external_id data ≠ Undefined
  ∧ match RawUser.external_accounts data with
    | Some accounts => Forall account_typed accounts
    | None => True
    end.

(** The [userEmail] table after the upserts of the loop over [emails],
    none of them rejected. *)
Definition upsert_emails (data : RawUser.t) (emails : list EmailAddress.t)
  (tbl : gmap string UserEmail.t) : gmap string UserEmail.t :=
  foldl (λ tbl email,
           (userEmail_upsert (EmailAddress.id email) (email_update email)
              (email_create data email) tbl).2)
    tbl emails.

(** The row [userData] leaves, whatever was stored before. *)
Definition user_row (data : RawUser.t) (primaryEmail : EmailAddress.t) : User.t :=
  write_user (userData data primaryEmail) user_defaults.

(** What one upsert of the loop does to the row of key [k]. *)
Definition entry_step (data : RawUser.t) (k : string) (row : option UserEmail.t)
  (email : EmailAddress.t) : option UserEmail.t :=
  if decide (EmailAddress.id email = k)
  then Some match row with
            | Some old => write_userEmail (email_update email) old
            | None => email_create data email
            end
  else row.

(** A thrown known request error carries a code of the store's own. *)
Definition own_code (e : Thrown) : Prop :=
  match e with
  | PrismaClientKnownRequestError code _ => code ∉ Object_prototype_keys
  | _ => True
  end.

(** No error the store raises has a code that is a key of
    [Object.prototype] (Prisma's codes are a P and four digits). *)
Definition store_codes_own : Prop :=
  ∀ st op e, db_fault st op = Some e → own_code e.

End Vocabulary.

(** ** Further vocabulary *)

(** Every row is stored under its own [id], in both tables. *)
Definition store_wf (st : Store) : Prop :=
  (∀ k row, users st !! k = Some row → User.id row = k)
  ∧ (∀ k row, userEmails st !! k = Some row → UserEmail.id row = k).

(** Every external account has both of its name keys (null or not). *)
Definition names_present (data : RawUser.t) : Prop :=
  match RawUser.external_accounts data with
  | Some accounts =>
      Forall (λ a, ExternalAccount.given_name a ≠ Undefined
                   ∧ ExternalAccount.family_name a ≠ Undefined) accounts
  | None => True
  end.

(** [data.id] and [data.email_addresses?.[0]?.email_address] of a raw
    body, as the second handler reads them (lines 201 and 205). *)
Definition raw_id (rawBody : Json) : option Json :=
  opt_get (js_get rawBody "data") "id".

Definition raw_primary_address (rawBody : Json) : option Json :=
  opt_get (opt_index0 (opt_get (js_get rawBody "data") "email_addresses")) "email_address".

(** The one operation of the second handler (lines 214-229). *)
Definition user_op2 (id emailAddress : string) (firstName lastName imageUrl : nullish string)
  : DbOp :=
  UserUpsert id (update2 emailAddress firstName lastName imageUrl)
    (create2 id emailAddress firstName lastName imageUrl).

(** The keys of [data] that [webhookSchema] does not mark optional
    (lines 8-37: every key but [external_accounts]). *)
Definition required_keys : list string :=
  [ "id"; "email_addresses"; "first_name"; "last_name"; "image_url";
    "created_at"; "updated_at"; "banned"; "external_id" ].

(** The ids of the entries of [email_addresses]. *)
Definition email_ids (emails : list EmailAddress.t) : list string :=
  EmailAddress.id <$> emails.

(** ** Properties *)

Section Properties.

Context {ext : Externals}.

(** *** The normalizer *)

Lemma coalesce_Null_not_Undefined {A} (a : nullish A) : a ?? Null ≠ Undefined.
Proof. by destruct a. Qed.

(** C2: [firstName], [lastName] and [imageUrl] of [userData] are the
    native value when it is not null, else that of the first external
    account when there is one and its value is not null, else null; an
    empty native string is kept and not replaced by the fallback. *)
Theorem userData_fallback_precedence (data : RawUser.t) (primaryEmail : EmailAddress.t) :
  let u := userData data primaryEmail in
  UserInput.firstName u
  = spec_resolve (RawUser.first_name data) (RawUser.external_accounts data)
      ExternalAccount.given_name
  ∧ UserInput.lastName u
    = spec_resolve (RawUser.last_name data) (RawUser.external_accounts data)
        ExternalAccount.family_name
  ∧ UserInput.imageUrl u
    = spec_resolve (RawUser.image_url data) (RawUser.external_accounts data)
        ExternalAccount.picture
  ∧ (RawUser.first_name data = Val "" → UserInput.firstName u = Val "")
  ∧ (RawUser.last_name data = Val "" → UserInput.lastName u = Val "")
  ∧ (RawUser.image_url data = Val "" → UserInput.imageUrl u = Val "").
Proof.
  destruct data as [id emails accounts first last image created updated banned ext_id].
  cbn -[coalesce opt_chain].
  unfold externalAccount; cbn.
  repeat split.
  - destruct first; cbn; try done;
      destruct accounts as [[|a rest]|]; cbn; try done;
      by destruct (ExternalAccount.given_name a).
  - destruct last; cbn; try done;
      destruct accounts as [[|a rest]|]; cbn; try done;
      by destruct (ExternalAccount.family_name a).
  - destruct image; cbn; try done;
      destruct accounts as [[|a rest]|]; cbn; try done;
      by destruct (ExternalAccount.picture a).
  - by intros ->.
  - by intros ->.
  - by intros ->.
Qed.

(** C6: without a first external account the three OAuth fields are
    null; with one, whatever the number of accounts after it, the
    provider is "google", [oauthId] is its [google_id] (null when
    absent) and [oauthScopes] its [approved_scopes]. *)
Theorem userData_oauth (data : RawUser.t) (primaryEmail : EmailAddress.t) :
  let u := userData data primaryEmail in
  match RawUser.external_accounts data with
  | Some (account :: _) =>
      UserInput.oauthProvider u = Val "google"
      ∧ UserInput.oauthId u
        = match ExternalAccount.google_id account with
          | Val g => Val g
          | _ => Null
          end
      ∧ UserInput.oauthScopes u = Val (ExternalAccount.approved_scopes account)
  | _ =>
      UserInput.oauthProvider u = Null
      ∧ UserInput.oauthId u = Null
      ∧ UserInput.oauthScopes u = Null
  end.
Proof.
  destruct data as [id emails accounts first last image created updated banned ext_id].
  cbn -[coalesce opt_chain].
  unfold externalAccount; cbn.
  destruct accounts as [[|a rest]|]; cbn; try done.
  repeat split. by destruct (ExternalAccount.google_id a).
Qed.
(** *** The [catch] block *)

Lemma errorInfo_own_code (code : string) :
  code ∉ Object_prototype_keys →
  ∃ text, errorInfo code = (Some (spec_status code), Some text).
Proof.
  intros Hown. unfold errorInfo, spec_status, prismaErrors; cbn.
  repeat case_decide; try done; by eexists.
Qed.

(** What the lookup of line 152 does to a code that is a key of
    [Object.prototype]: the inherited value is kept, its [status] and
    [message] are [undefined], and the response is a 200 without the
    [error] key. *)
Lemma catch_block_inherited_code (code message : string) :
  code ∈ Object_prototype_keys →
  catch_block (PrismaClientKnownRequestError code message)
  = mkResponse 200 (Stringify (JObj [ ("code", JStr code); ("details", JStr message) ])).
Proof.
  intros Hkey. unfold catch_block, errorInfo.
  assert (record_get code prismaErrors = None) as ->.
  { unfold Object_prototype_keys in Hkey. rewrite !elem_of_cons in Hkey.
    destruct Hkey as [->|[->|[->|[->|[->|[->|[->|[->|[->|[->|[->|[->|?%elem_of_nil]]]]]]]]]]]];
      done. }
  by rewrite decide_True.
Qed.

Lemma catch_block_not_200 (e : Thrown) : own_code e → status (catch_block e) ≠ 200.
Proof.
  destruct e as [code message| |]; cbn; try done.
  intros [text ->]%errorInfo_own_code. cbn.
  unfold spec_status. by repeat case_decide.
Qed.

Lemma catch_block3_not_200 (e : Thrown) : own_code e → status (catch_block3 e) ≠ 200.
Proof.
  destruct e as [code message| |]; cbn; try done.
  intros [text ->]%errorInfo_own_code. cbn.
  unfold spec_status. by repeat case_decide.
Qed.

(** The user upsert rejected by the store: the handler answers with the
    [catch] block's response for that error, and nothing is written. *)
Lemma POST_user_upsert_rejected rawBody ev primaryEmail st e :
  webhookSchema (Some rawBody) = Some ev →
  head (RawUser.email_addresses (IncomingEvent.data ev)) = Some primaryEmail →
  db_fault st (user_op (IncomingEvent.data ev) primaryEmail) = Some e →
  POST (WithBody rawBody) st
  = (catch_block e, st, [user_op (IncomingEvent.data ev) primaryEmail]).
Proof.
  intros Hparse Hhead Hfault.
  unfold POST, try_catch, POST_try. rewrite Hparse, Hhead.
  unfold db_bind, db_user_upsert. unfold user_op in Hfault. by rewrite Hfault.
Qed.

(** *** The schemas *)

Ltac invert_binds :=
  repeat match goal with
         | H : _ ≫= _ = Some _ |- _ => apply bind_Some in H as (? & ? & ?)
         | H : Some _ = Some _ |- _ => apply (inj Some) in H
         end.

Lemma z_string_inv v s : z_string v = Some s → v = Some (JStr s).
Proof. destruct v as [[]|]; cbn; congruence. Qed.

Lemma z_refine_inv check s v x : z_refine check s v = Some x → s v = Some x ∧ check x = true.
Proof.
  unfold z_refine. destruct (s v) as [y|]; [|done].
  destruct (check y) eqn:Hc; [|done]. by intros [= ->].
Qed.

Lemma z_nullable_inv {T} (s : Schema T) v x :
  z_nullable s v = Some x →
  (v = Some JNull ∧ x = Null) ∨ (∃ y, s v = Some y ∧ x = Val y).
Proof.
  unfold z_nullable. intros H.
  assert (Val <$> s v = Some x → ∃ y, s v = Some y ∧ x = Val y) as Hval.
  { intros (y & ? & ->)%fmap_Some. eauto. }
  destruct v as [[]|]; try (right; by apply Hval).
  left. by injection H as <-.
Qed.

Lemma z_optional_inv {T} (s : Schema T) v x :
  z_optional s v = Some x →
  (v = None ∧ x = Undefined) ∨ (∃ y, s v = Some y ∧ x = Val y).
Proof.
  unfold z_optional. destruct v as [j|].
  - intros (y & ? & ->)%fmap_Some. eauto.
  - intros [= <-]. by left.
Qed.

Lemma z_array_inv {T} (s : Schema T) v l :
  z_array s v = Some l →
  ∃ items, v = Some (JArr items) ∧ Forall2 (λ x y, s (Some x) = Some y) items l.
Proof.
  unfold z_array. destruct v as [[]|]; try done.
  intros H%mapM_Some. eauto.
Qed.

Lemma emailAddressSchema_email v e :
  emailAddressSchema v = Some e → is_email (EmailAddress.email_address e) = true.
Proof.
  unfold emailAddressSchema, z_object. destruct v as [[]|]; try done.
  intros H. invert_binds. subst e. cbn.
  by eapply z_refine_inv.
Qed.

Lemma externalAccountSchema_typed name v a :
  externalAccountSchema name v = Some a → account_typed a.
Proof.
  unfold externalAccountSchema, z_object. destruct v as [[]|]; try done.
  intros H. invert_binds. subst a. unfold account_typed; cbn.
  repeat match goal with
         | H : z_optional _ _ = Some _ |- _ => apply z_optional_inv in H
         end.
  split; [by eapply z_refine_inv|]. split.
  - match goal with
    | H : _ ∨ (∃ y, z_refine is_url _ _ = _ ∧ _) |- _ =>
        destruct H as [[_ ->]|(y & Hy%z_refine_inv & ->)]; cbn; tauto
    end.
  - match goal with
    | H : _ ∨ (∃ y, z_string _ = _ ∧ _) |- _ =>
        destruct H as [[_ ->]|(y & _ & ->)]; done
    end.
Qed.

(** What [dataSchema] read for each field of the object it accepted. *)
Lemma dataSchema_inv name v data :
  dataSchema name v = Some data →
  ∃ o, v = Some (JObj o)
  ∧ z_string (get_prop "id" o) = Some (RawUser.id data)
  ∧ z_array emailAddressSchema (get_prop "email_addresses" o)
    = Some (RawUser.email_addresses data)
  ∧ z_optional_array (z_array (externalAccountSchema name))
      (get_prop "external_accounts" o)
    = Some (RawUser.external_accounts data)
  ∧ z_nullable z_string (get_prop "first_name" o) = Some (RawUser.first_name data)
  ∧ z_nullable z_string (get_prop "last_name" o) = Some (RawUser.last_name data)
  ∧ z_nullable (z_refine is_url z_string) (get_prop "image_url" o)
    = Some (RawUser.image_url data)
  ∧ z_nullable z_string (get_prop "external_id" o) = Some (RawUser.external_id data).
Proof.
  unfold dataSchema, z_object. destruct v as [[]|]; try done.
  intros H. invert_binds. subst data. cbn. eauto 10.
Qed.

Lemma eventSchema_inv name v ev :
  eventSchema name v = Some ev →
  ∃ o, v = Some (JObj o)
  ∧ dataSchema name (get_prop "data" o) = Some (IncomingEvent.data ev)
  ∧ z_string (get_prop "type" o) = Some (IncomingEvent.type ev).
Proof.
  unfold eventSchema, z_object. destruct v as [[]|]; try done.
  intros H. invert_binds. subst ev. cbn. eauto.
Qed.

Lemma eventSchema_typed name rawBody ev :
  eventSchema name (Some rawBody) = Some ev → payload_typed rawBody ev.
Proof.
  intros (o & [= ->] & (d & Hd & Hid & Hemails & Haccounts & Hfirst & Hlast & Himage & Hext)
            %dataSchema_inv & _)%eventSchema_inv.
  unfold payload_typed, raw_email_addresses; cbn. rewrite Hd; cbn.
  apply z_array_inv in Hemails as (items & Hitems & Hall).
  repeat split.
  - by apply z_string_inv.
  - exists items. split; [done|]. by eapply Forall2_length.
  - clear Hitems. induction Hall as [|x e xs es Hx _ IH]; constructor; [|done].
    by eapply emailAddressSchema_email.
  - by apply z_nullable_inv in Hfirst as [[_ ->]|(? & _ & ->)].
  - by apply z_nullable_inv in Hlast as [[_ ->]|(? & _ & ->)].
  - apply z_nullable_inv in Himage as [[_ ->]|(? & Hu%z_refine_inv & ->)]; cbn; tauto.
  - by apply z_nullable_inv in Hext as [[_ ->]|(? & _ & ->)].
  - unfold z_optional_array in Haccounts.
    destruct (get_prop "external_accounts" d) as [j|].
    + apply fmap_Some in Haccounts as (accounts & (xs & _ & Hxs)%z_array_inv & ->).
      induction Hxs as [|x a xs' accounts' Hx _ IH]; constructor; [|done].
      by eapply externalAccountSchema_typed.
    + by injection Haccounts as <-.
Qed.

(** C4, as the schemas have it: a payload that [webhookSchema] (of the
    first or of the third document) accepts has a string [data.id] and
    an array [data.email_addresses], each possibly empty; every element
    of the array has an [email_address] that passes the email check;
    [first_name], [last_name] and [external_id] are null or a string,
    [image_url] is null or a URL, and in each external account
    [picture] is absent or a URL and [google_id] absent or a string. *)
Theorem webhookSchema_typed (rawBody : Json) (ev : IncomingEvent.t) :
  webhookSchema (Some rawBody) = Some ev ∨ webhookSchema3 (Some rawBody) = Some ev →
  payload_typed rawBody ev.
Proof. intros [H|H]; by eapply eventSchema_typed. Qed.

(** *** The writes *)

Lemma set_nullable_coalesce_Null {A} (a : nullish A) (old old' : option A) :
  set_nullable (a ?? Null) old = set_nullable (a ?? Null) old'.
Proof. by destruct a. Qed.

(** [userData] sets every column: the row written does not depend on
    the row it is written over. *)
Lemma write_userData_total data primaryEmail old :
  RawUser.external_id data ≠ Undefined →
  write_user (userData data primaryEmail) old = user_row data primaryEmail.
Proof.
  intros Hext.
  unfold user_row, write_user, userData.
  cbn -[coalesce opt_chain].
  f_equal; try apply set_nullable_coalesce_Null.
  - by destruct (RawUser.external_id data).
  - by destruct (externalAccount data).
Qed.

Lemma user_row_id data primaryEmail :
  User.id (user_row data primaryEmail) = RawUser.id data.
Proof. done. Qed.

Lemma user_upsert_userData data primaryEmail tbl :
  RawUser.external_id data ≠ Undefined →
  let u := userData data primaryEmail in
  user_upsert (RawUser.id data) u u tbl
  = (user_row data primaryEmail, <[RawUser.id data := user_row data primaryEmail]> tbl).
Proof.
  intros Hext. cbv zeta. unfold user_upsert.
  destruct (tbl !! RawUser.id data) as [old|] eqn:Hold; cbv zeta.
  - rewrite write_userData_total by done.
    by rewrite user_row_id, insert_delete_eq.
  - fold (user_row data primaryEmail). by rewrite user_row_id.
Qed.

Lemma userEmail_upsert_lookup data email tbl k :
  (userEmail_upsert (EmailAddress.id email) (email_update email)
     (email_create data email) tbl).2 !! k
  = entry_step data k (tbl !! k) email.
Proof.
  unfold userEmail_upsert, entry_step.
  destruct (decide (EmailAddress.id email = k)) as [<-|Hne].
  - destruct (tbl !! EmailAddress.id email) as [old|]; cbn; by rewrite lookup_insert_eq.
  - destruct (tbl !! EmailAddress.id email) as [old|]; cbn; by rewrite lookup_insert_ne.
Qed.

Lemma upsert_emails_lookup data emails tbl k :
  upsert_emails data emails tbl !! k = foldl (entry_step data k) (tbl !! k) emails.
Proof.
  unfold upsert_emails. revert tbl.
  induction emails as [|email rest IH]; intros tbl; cbn; [done|].
  by rewrite IH, userEmail_upsert_lookup.
Qed.

(** The loop never changes the [id] or the [userId] of a row that was
    there. *)
Lemma entry_steps_frame data k emails old :
  ∃ new, foldl (entry_step data k) (Some old) emails = Some new
         ∧ UserEmail.id new = UserEmail.id old
         ∧ UserEmail.userId new = UserEmail.userId old.
Proof.
  revert old. induction emails as [|email rest IH]; intros old; cbn; [eauto|].
  unfold entry_step at 2. case_decide; [|apply IH].
  destruct (IH (write_userEmail (email_update email) old)) as (new & -> & ? & ?).
  eauto.
Qed.

Lemma write_userEmail_frame update row row' :
  UserEmail.id row = UserEmail.id row' →
  UserEmail.userId row = UserEmail.userId row' →
  write_userEmail update row = write_userEmail update row'.
Proof. unfold write_userEmail. by intros -> ->. Qed.

Lemma entry_step_other data k row email :
  EmailAddress.id email ≠ k → entry_step data k row email = row.
Proof. intros Hne. unfold entry_step. by case_decide. Qed.

Lemma entry_step_same data k row email :
  EmailAddress.id email = k →
  entry_step data k row email
  = Some match row with
         | Some old => write_userEmail (email_update email) old
         | None => email_create data email
         end.
Proof. intros Heq. unfold entry_step. by case_decide. Qed.

Lemma entry_steps_idempotent data k emails row :
  foldl (entry_step data k) (foldl (entry_step data k) row emails) emails
  = foldl (entry_step data k) row emails.
Proof.
  revert row. induction emails as [|email rest IH] using rev_ind; intros row; [done|].
  rewrite !foldl_snoc.
  destruct (decide (EmailAddress.id email = k)) as [Hk|Hk].
  - rewrite !(entry_step_same _ _ _ _ Hk).
    set (written := match foldl (entry_step data k) row rest with
                    | Some old => write_userEmail (email_update email) old
                    | None => email_create data email
                    end).
    destruct (entry_steps_frame data k rest written) as (new & -> & Hid & Huser).
    f_equal. rewrite (write_userEmail_frame _ new written) by done.
    unfold written. by destruct (foldl (entry_step data k) row rest).
  - rewrite !(entry_step_other _ _ _ _ Hk). apply IH.
Qed.

Lemma upsert_emails_idempotent data emails tbl :
  upsert_emails data emails (upsert_emails data emails tbl)
  = upsert_emails data emails tbl.
Proof.
  apply map_eq; intros k.
  rewrite !upsert_emails_lookup. apply entry_steps_idempotent.
Qed.

Lemma upsert_emails_frame data emails tbl k old :
  tbl !! k = Some old →
  ∃ new, upsert_emails data emails tbl !! k = Some new
         ∧ UserEmail.id new = UserEmail.id old
         ∧ UserEmail.userId new = UserEmail.userId old.
Proof.
  intros Hold. rewrite upsert_emails_lookup, Hold. apply entry_steps_frame.
Qed.

(** *** The runs *)

(** One turn of the loop of [store_emails]. *)
Lemma store_email_step data email st :
  (db_userEmail_upsert (EmailAddress.id email) (email_update email)
     (email_create data email) ;;; db_ret tt) st
  = match db_fault st (email_op data email) with
    | Some e => Throw e st [email_op data email]
    | None =>
        Ok tt (mkStore (users st) (upsert_emails data [email] (userEmails st)))
          [email_op data email]
    end.
Proof.
  unfold db_bind, db_userEmail_upsert, email_op, upsert_emails; cbn.
  destruct (db_fault st _); [done|].
  by destruct (userEmail_upsert _ _ _ _).
Qed.

(** The loop over [emails], as the sources run it: either every upsert
    was accepted, or the loop stopped at the first one the store
    rejected, with the earlier ones written. *)
Lemma store_emails_run data emails st :
  match for_of emails (λ email,
          db_userEmail_upsert (EmailAddress.id email) (email_update email)
            (email_create data email) ;;; db_ret tt) st with
  | Ok _ st' ops =>
      st' = mkStore (users st) (upsert_emails data emails (userEmails st))
      ∧ ops = email_op data <$> emails
  | Throw e st' ops =>
      ∃ sent email rest,
        emails = sent ++ email :: rest
        ∧ st' = mkStore (users st) (upsert_emails data sent (userEmails st))
        ∧ db_fault st' (email_op data email) = Some e
        ∧ ops = email_op data <$> (sent ++ [email])
  end.
Proof.
  revert st. induction emails as [|email rest IH]; intros st.
  { cbn. by destruct st. }
  cbn [for_of]. unfold db_bind at 1. rewrite store_email_step.
  destruct (db_fault st (email_op data email)) as [e|] eqn:Hfault.
  { exists [], email, rest. cbn. by destruct st. }
  specialize (IH (mkStore (users st) (upsert_emails data [email] (userEmails st)))).
  destruct (for_of rest _ _) as [u st' ops|e st' ops]; cbn in IH.
  - destruct IH as [-> ->]. done.
  - destruct IH as (sent & email' & rest' & -> & -> & Hfault' & ->).
    exists (email :: sent), email', rest'. done.
Qed.

(** The two writes of the first and third documents on a validated
    event, with whatever response [respond] builds at the end. *)
Lemma persist_run data primaryEmail (respond : User.t → Response) st :
  RawUser.external_id data ≠ Undefined →
  let u := userData data primaryEmail in
  let users' := <[RawUser.id data := user_row data primaryEmail]> (users st) in
  match (let* updatedUser := db_user_upsert (RawUser.id data) u u in
         store_emails data ;;; db_ret (respond updatedUser)) st with
  | Ok r st' ops =>
      db_fault st (user_op data primaryEmail) = None
      ∧ r = respond (user_row data primaryEmail)
      ∧ st' = mkStore users' (upsert_emails data (RawUser.email_addresses data)
                                (userEmails st))
      ∧ ops = user_op data primaryEmail
              :: (email_op data <$> RawUser.email_addresses data)
  | Throw e st' ops =>
      (db_fault st (user_op data primaryEmail) = Some e
       ∧ st' = st ∧ ops = [user_op data primaryEmail])
      ∨ (db_fault st (user_op data primaryEmail) = None
         ∧ ∃ sent email rest,
             RawUser.email_addresses data = sent ++ email :: rest
             ∧ st' = mkStore users' (upsert_emails data sent (userEmails st))
             ∧ db_fault st' (email_op data email) = Some e
             ∧ ops = user_op data primaryEmail
                     :: (email_op data <$> (sent ++ [email])))
  end.
Proof.
  intros Hext. cbv zeta.
  unfold db_bind at 1, db_user_upsert. fold (user_op data primaryEmail).
  destruct (db_fault st (user_op data primaryEmail)) as [e|] eqn:Hfault.
  { left. done. }
  rewrite user_upsert_userData by done.
  unfold db_bind at 1, store_emails.
  pose proof (store_emails_run data (RawUser.email_addresses data)
                (mkStore (<[RawUser.id data := user_row data primaryEmail]> (users st))
                   (userEmails st))) as Hloop.
  destruct (for_of _ _ _) as [u st' ops|e st' ops]; cbn in Hloop |- *.
  - destruct Hloop as [-> ->]. by rewrite app_nil_r.
  - right. destruct Hloop as (sent & email & rest & Hsplit & -> & Hfault' & ->).
    split; [done|]. exists sent, email, rest. done.
Qed.



(** The three ways a run of the first handler on a validated event with
    an email address can go: both writes done; the user upsert
    rejected; an email upsert rejected after the user row and the
    earlier emails were written. *)
Lemma POST_run rawBody ev primaryEmail st :
  webhookSchema (Some rawBody) = Some ev →
  head (RawUser.email_addresses (IncomingEvent.data ev)) = Some primaryEmail →
  let data := IncomingEvent.data ev in
  let users' := <[RawUser.id data := user_row data primaryEmail]> (users st) in
  (db_fault st (user_op data primaryEmail) = None
   ∧ POST (WithBody rawBody) st
     = (mkResponse 200
          (Stringify (JObj [ ("message", JStr "Webhook processed successfully");
                             ("userId", JStr (RawUser.id data)) ])),
        mkStore users' (upsert_emails data (RawUser.email_addresses data) (userEmails st)),
        user_op data primaryEmail :: (email_op data <$> RawUser.email_addresses data)))
  ∨ (∃ e, db_fault st (user_op data primaryEmail) = Some e
          ∧ POST (WithBody rawBody) st = (catch_block e, st, [user_op data primaryEmail]))
  ∨ (db_fault st (user_op data primaryEmail) = None
     ∧ ∃ e sent email rest,
         RawUser.email_addresses data = sent ++ email :: rest
         ∧ db_fault (mkStore users' (upsert_emails data sent (userEmails st)))
             (email_op data email) = Some e
         ∧ POST (WithBody rawBody) st
           = (catch_block e,
              mkStore users' (upsert_emails data sent (userEmails st)),
              user_op data primaryEmail :: (email_op data <$> (sent ++ [email])))).
Proof.
  intros Hparse Hhead. cbv zeta.
  assert (RawUser.external_id (IncomingEvent.data ev) ≠ Undefined) as Hext.
  { apply eventSchema_typed in Hparse. unfold payload_typed in Hparse. tauto. }
  unfold POST, try_catch, POST_try. rewrite Hparse, Hhead.
  pose proof (persist_run (IncomingEvent.data ev) primaryEmail
                (λ updatedUser,
                   mkResponse 200
                     (Stringify (JObj [ ("message", JStr "Webhook processed successfully");
                                        ("userId", JStr (User.id updatedUser)) ])))
                st Hext) as Hrun.
  cbv zeta in Hrun.
  destruct (db_bind _ _ st) as [r st' ops|e st' ops].
  - left. destruct Hrun as (Hfault & -> & -> & ->). done.
  - right. destruct Hrun as [(Hfault & -> & ->)|(Hfault & sent & email & rest & Hsplit & -> & Hfault' & ->)].
    + left. eauto.
    + right. split; [done|]. exists e, sent, email, rest. done.
Qed.

Lemma POST3_run rawBody ev primaryEmail st :
  webhookSchema3 (Some rawBody) = Some ev →
  head (RawUser.email_addresses (IncomingEvent.data ev)) = Some primaryEmail →
  let data := IncomingEvent.data ev in
  let users' := <[RawUser.id data := user_row data primaryEmail]> (users st) in
  (db_fault st (user_op data primaryEmail) = None
   ∧ POST3 (WithBody rawBody) st
     = (mkResponse 200
          (Stringify (JObj [ ("message", JStr "Webhook processed successfully") ])),
        mkStore users' (upsert_emails data (RawUser.email_addresses data) (userEmails st)),
        user_op data primaryEmail :: (email_op data <$> RawUser.email_addresses data)))
  ∨ (∃ e, db_fault st (user_op data primaryEmail) = Some e
          ∧ POST3 (WithBody rawBody) st = (catch_block3 e, st, [user_op data primaryEmail]))
  ∨ (db_fault st (user_op data primaryEmail) = None
     ∧ ∃ e sent email rest,
         RawUser.email_addresses data = sent ++ email :: rest
         ∧ db_fault (mkStore users' (upsert_emails data sent (userEmails st)))
             (email_op data email) = Some e
         ∧ POST3 (WithBody rawBody) st
           = (catch_block3 e,
              mkStore users' (upsert_emails data sent (userEmails st)),
              user_op data primaryEmail :: (email_op data <$> (sent ++ [email])))).
Proof.
  intros Hparse Hhead. cbv zeta.
  assert (RawUser.external_id (IncomingEvent.data ev) ≠ Undefined) as Hext.
  { apply eventSchema_typed in Hparse. unfold payload_typed in Hparse. tauto. }
  unfold POST3, try_catch, POST3_try. rewrite Hparse, Hhead.
  pose proof (persist_run (IncomingEvent.data ev) primaryEmail
                (λ _, mkResponse 200
                        (Stringify (JObj [ ("message", JStr "Webhook processed successfully") ])))
                st Hext) as Hrun.
  cbv zeta in Hrun.
  destruct (db_bind _ _ st) as [r st' ops|e st' ops].
  - left. destruct Hrun as (Hfault & -> & -> & ->). done.
  - right. destruct Hrun as [(Hfault & -> & ->)|(Hfault & sent & email & rest & Hsplit & -> & Hfault' & ->)].
    + left. eauto.
    + right. split; [done|]. exists e, sent, email, rest. done.
Qed.

(** A payload the schema rejects, or one without an email address, is
    answered 400 with nothing sent to the store. *)
Lemma POST_no_primary_email rawBody st :
  (∀ ev, webhookSchema (Some rawBody) = Some ev →
         RawUser.email_addresses (IncomingEvent.data ev) = []) →
  ∃ r, POST (WithBody rawBody) st = (r, st, []) ∧ status r = 400.
Proof.
  intros Hempty. unfold POST, try_catch, POST_try.
  destruct (webhookSchema (Some rawBody)) as [ev|]; [|by eexists].
  rewrite (Hempty ev eq_refl). by eexists.
Qed.

Lemma POST3_no_primary_email rawBody st :
  (∀ ev, webhookSchema3 (Some rawBody) = Some ev →
         RawUser.email_addresses (IncomingEvent.data ev) = []) →
  ∃ r, POST3 (WithBody rawBody) st = (r, st, []) ∧ status r = 400.
Proof.
  intros Hempty. unfold POST3, try_catch, POST3_try.
  destruct (webhookSchema3 (Some rawBody)) as [ev|]; [|by eexists].
  rewrite (Hempty ev eq_refl). by eexists.
Qed.

Lemma eventSchema_no_emails name rawBody ev :
  raw_email_addresses rawBody = None ∨ raw_email_addresses rawBody = Some (JArr []) →
  eventSchema name (Some rawBody) = Some ev →
  RawUser.email_addresses (IncomingEvent.data ev) = [].
Proof.
  intros Hraw (_ & (items & Hitems & Hlen) & _)%eventSchema_typed.
  destruct Hraw as [Hraw|Hraw]; rewrite Hraw in Hitems; [done|].
  injection Hitems as <-. by apply nil_length_inv.
Qed.

(** C3: when [data.email_addresses] of the body is missing or is the
    empty array, the handler (of the first and of the third document)
    answers 400, sends no operation to the store and leaves it
    unchanged. *)
Theorem POST_without_email_persists_nothing (rawBody : Json) (st : Store) :
  raw_email_addresses rawBody = None ∨ raw_email_addresses rawBody = Some (JArr []) →
  (∃ r, POST (WithBody rawBody) st = (r, st, []) ∧ status r = 400)
  ∧ (∃ r, POST3 (WithBody rawBody) st = (r, st, []) ∧ status r = 400).
Proof.
  intros Hraw. split.
  - apply POST_no_primary_email. intros ev. by apply eventSchema_no_emails.
  - apply POST3_no_primary_email. intros ev. by apply eventSchema_no_emails.
Qed.

(** *** The claims about the writes *)

(** C7: on a validated event with an email address the handler sends
    the user upsert first and then the email upserts in the order of
    [email_addresses], stopping only where the store rejects one; when
    it answers 200, the store's error codes being its own (none a key
    of [Object.prototype], for which the [catch] block too answers
    200), it has sent exactly one user upsert followed by one email
    upsert per entry.  Each email upsert is keyed by the entry's
    [id], carries its address, verification status and strategy, and
    creates its row with [userId] equal to [data.id]. *)
Theorem POST_operations rawBody ev primaryEmail st r st' ops :
  webhookSchema (Some rawBody) = Some ev →
  head (RawUser.email_addresses (IncomingEvent.data ev)) = Some primaryEmail →
  POST (WithBody rawBody) st = (r, st', ops) →
  let data := IncomingEvent.data ev in
  let emails := RawUser.email_addresses data in
  head ops = Some (user_op data primaryEmail)
  ∧ ops `prefix_of` user_op data primaryEmail :: (email_op data <$> emails)
  ∧ (store_codes_own → status r = 200 →
       ops = user_op data primaryEmail :: (email_op data <$> emails)
       ∧ length ops = S (length emails))
  ∧ Forall (λ email,
      email_op data email
      = UserEmailUpsert (EmailAddress.id email)
          {| UserEmailUpdate.emailAddress := EmailAddress.email_address email;
             UserEmailUpdate.verificationStatus :=
               Verification.status (EmailAddress.verification email);
             UserEmailUpdate.verificationStrategy :=
               Verification.strategy (EmailAddress.verification email) |}
          {| UserEmail.id := EmailAddress.id email;
             UserEmail.userId := RawUser.id data;
             UserEmail.emailAddress := EmailAddress.email_address email;
             UserEmail.verificationStatus :=
               Verification.status (EmailAddress.verification email);
             UserEmail.verificationStrategy :=
               Verification.strategy (EmailAddress.verification email) |}) emails.
Proof.
  intros Hparse Hhead Hrun. cbv zeta.
  split; [|split; [|split]]; [..|by apply Forall_forall].
  - destruct (POST_run rawBody ev primaryEmail st Hparse Hhead)
      as [[_ H]|[(e & _ & H)|(_ & e & sent & email & rest & _ & _ & H)]];
      rewrite H in Hrun; by injection Hrun as <- <- <-.
  - destruct (POST_run rawBody ev primaryEmail st Hparse Hhead)
      as [[_ H]|[(e & _ & H)|(_ & e & sent & email & rest & Hsplit & _ & H)]];
      rewrite H in Hrun; injection Hrun as <- <- <-.
    + done.
    + by eexists.
    + rewrite Hsplit. exists (email_op (IncomingEvent.data ev) <$> rest).
      rewrite !fmap_app. cbn. by rewrite <- app_assoc.
  - intros Hown H200.
    destruct (POST_run rawBody ev primaryEmail st Hparse Hhead)
      as [[_ H]|[(e & He & H)|(_ & e & sent & email & rest & _ & He & H)]];
      rewrite H in Hrun; injection Hrun as <- <- <-.
    + split; [done|]. cbn. by rewrite length_fmap.
    + by destruct (catch_block_not_200 e (Hown _ _ _ He)).
    + by destruct (catch_block_not_200 e (Hown _ _ _ He)).
Qed.

(** A run that answers 200 went through both writes, when the store's
    error codes are its own. *)
Lemma POST_200_inv rawBody st r st' ops :
  store_codes_own →
  POST (WithBody rawBody) st = (r, st', ops) →
  status r = 200 →
  ∃ ev primaryEmail,
    webhookSchema (Some rawBody) = Some ev
    ∧ head (RawUser.email_addresses (IncomingEvent.data ev)) = Some primaryEmail
    ∧ st' = mkStore
              (<[RawUser.id (IncomingEvent.data ev)
                 := user_row (IncomingEvent.data ev) primaryEmail]> (users st))
              (upsert_emails (IncomingEvent.data ev)
                 (RawUser.email_addresses (IncomingEvent.data ev)) (userEmails st)).
Proof.
  intros Hown Hrun H200.
  destruct (webhookSchema (Some rawBody)) as [ev|] eqn:Hparse; last first.
  { unfold POST, try_catch, POST_try in Hrun. rewrite Hparse in Hrun.
    injection Hrun as <- _ _. done. }
  destruct (head (RawUser.email_addresses (IncomingEvent.data ev)))
    as [primaryEmail|] eqn:Hhead; last first.
  { unfold POST, try_catch, POST_try in Hrun. rewrite Hparse, Hhead in Hrun.
    injection Hrun as <- _ _. done. }
  exists ev, primaryEmail. split; [done|]. split; [done|].
  destruct (POST_run rawBody ev primaryEmail st Hparse Hhead)
    as [[_ H]|[(e & He & H)|(_ & e & sent & email & rest & _ & He & H)]];
    rewrite H in Hrun; injection Hrun as <- <- <-.
  - done.
  - by destruct (catch_block_not_200 e (Hown _ _ _ He)).
  - by destruct (catch_block_not_200 e (Hown _ _ _ He)).
Qed.

(** C1: when the handler answers 200 to an event and then answers 200
    to the same event again, the second run leaves the store exactly as
    the first left it: the [user] table has the one row of [data.id],
    built from the event, and the [userEmail] table is the same.  The
    store's error codes are taken to be its own: for a code that is a
    key of [Object.prototype] the [catch] block answers 200 as well,
    and a 200 then says nothing of the writes. *)
Theorem POST_idempotent rawBody st r1 st1 ops1 r2 st2 ops2 :
  store_codes_own →
  POST (WithBody rawBody) st = (r1, st1, ops1) →
  status r1 = 200 →
  POST (WithBody rawBody) st1 = (r2, st2, ops2) →
  status r2 = 200 →
  st2 = st1
  ∧ ∃ ev primaryEmail,
      webhookSchema (Some rawBody) = Some ev
      ∧ head (RawUser.email_addresses (IncomingEvent.data ev)) = Some primaryEmail
      ∧ users st1 !! RawUser.id (IncomingEvent.data ev)
        = Some (user_row (IncomingEvent.data ev) primaryEmail)
      ∧ users st2 = users st1
      ∧ userEmails st2 = userEmails st1.
Proof.
  intros Hown Hrun1 H1 Hrun2 H2.
  destruct (POST_200_inv _ _ _ _ _ Hown Hrun1 H1)
    as (ev & primaryEmail & Hparse & Hhead & ->).
  destruct (POST_200_inv _ _ _ _ _ Hown Hrun2 H2)
    as (ev' & primaryEmail' & Hparse' & Hhead' & ->).
  rewrite Hparse in Hparse'. injection Hparse' as <-.
  rewrite Hhead in Hhead'. injection Hhead' as <-.
  cbn. rewrite insert_insert_eq, upsert_emails_idempotent.
  split; [done|]. exists ev, primaryEmail.
  by rewrite lookup_insert_eq.
Qed.

Lemma POST_frame req st r st' ops k old :
  POST req st = (r, st', ops) →
  userEmails st !! k = Some old →
  ∃ new, userEmails st' !! k = Some new
         ∧ UserEmail.id new = UserEmail.id old
         ∧ UserEmail.userId new = UserEmail.userId old.
Proof.
  intros Hrun Hold.
  assert (st' = st → ∃ new, userEmails st' !! k = Some new
                            ∧ UserEmail.id new = UserEmail.id old
                            ∧ UserEmail.userId new = UserEmail.userId old) as Hsame.
  { intros ->. eauto. }
  destruct req as [|e|rawBody]; [apply Hsame; by injection Hrun..|].
  destruct (webhookSchema (Some rawBody)) as [ev|] eqn:Hparse; last first.
  { unfold POST, try_catch, POST_try in Hrun. rewrite Hparse in Hrun.
    apply Hsame. by injection Hrun. }
  destruct (head (RawUser.email_addresses (IncomingEvent.data ev)))
    as [primaryEmail|] eqn:Hhead; last first.
  { unfold POST, try_catch, POST_try in Hrun. rewrite Hparse, Hhead in Hrun.
    apply Hsame. by injection Hrun. }
  destruct (POST_run rawBody ev primaryEmail st Hparse Hhead)
    as [[_ H]|[(e & _ & H)|(_ & e & sent & email & rest & _ & _ & H)]];
    rewrite H in Hrun; injection Hrun as <- <- <-.
  - by apply upsert_emails_frame.
  - eauto.
  - by apply upsert_emails_frame.
Qed.

Lemma POST3_frame req st r st' ops k old :
  POST3 req st = (r, st', ops) →
  userEmails st !! k = Some old →
  ∃ new, userEmails st' !! k = Some new
         ∧ UserEmail.id new = UserEmail.id old
         ∧ UserEmail.userId new = UserEmail.userId old.
Proof.
  intros Hrun Hold.
  assert (st' = st → ∃ new, userEmails st' !! k = Some new
                            ∧ UserEmail.id new = UserEmail.id old
                            ∧ UserEmail.userId new = UserEmail.userId old) as Hsame.
  { intros ->. eauto. }
  destruct req as [|e|rawBody]; [apply Hsame; by injection Hrun..|].
  destruct (webhookSchema3 (Some rawBody)) as [ev|] eqn:Hparse; last first.
  { unfold POST3, try_catch, POST3_try in Hrun. rewrite Hparse in Hrun.
    apply Hsame. by injection Hrun. }
  destruct (head (RawUser.email_addresses (IncomingEvent.data ev)))
    as [primaryEmail|] eqn:Hhead; last first.
  { unfold POST3, try_catch, POST3_try in Hrun. rewrite Hparse, Hhead in Hrun.
    apply Hsame. by injection Hrun. }
  destruct (POST3_run rawBody ev primaryEmail st Hparse Hhead)
    as [[_ H]|[(e & _ & H)|(_ & e & sent & email & rest & _ & _ & H)]];
    rewrite H in Hrun; injection Hrun as <- <- <-.
  - by apply upsert_emails_frame.
  - eauto.
  - by apply upsert_emails_frame.
Qed.

(** C9: a row of [userEmail] that is in the store before a run of the
    handler (of the first or of the third document) is still there
    after it with the same [id] and the same [userId], whatever the
    request; and the upsert of an entry whose [id] is the key of that
    row writes the entry's address, verification status and strategy
    over it and nothing else, so a row owned by another user keeps its
    owner. *)
Theorem userEmail_update_keeps_owner req st r st' ops k old :
  POST req st = (r, st', ops) ∨ POST3 req st = (r, st', ops) →
  userEmails st !! k = Some old →
  (∃ new, userEmails st' !! k = Some new
          ∧ UserEmail.id new = UserEmail.id old
          ∧ UserEmail.userId new = UserEmail.userId old)
  ∧ ∀ data email,
      EmailAddress.id email = k →
      let row := {| UserEmail.id := UserEmail.id old;
                    UserEmail.userId := UserEmail.userId old;
                    UserEmail.emailAddress := EmailAddress.email_address email;
                    UserEmail.verificationStatus :=
                      Verification.status (EmailAddress.verification email);
                    UserEmail.verificationStrategy :=
                      Verification.strategy (EmailAddress.verification email) |} in
      userEmail_upsert (EmailAddress.id email) (email_update email)
        (email_create data email) (userEmails st)
      = (row, <[k := row]> (userEmails st)).
Proof.
  intros Hrun Hold. split.
  - destruct Hrun as [Hrun|Hrun]; [by eapply POST_frame|by eapply POST3_frame].
  - intros data email <-. cbv zeta. unfold userEmail_upsert. by rewrite Hold.
Qed.

(** *** The event type *)

Lemma eventSchema_same_data name o1 o2 ev1 ev2 :
  eventSchema name (Some (JObj o1)) = Some ev1 →
  eventSchema name (Some (JObj o2)) = Some ev2 →
  get_prop "data" o1 = get_prop "data" o2 →
  IncomingEvent.data ev1 = IncomingEvent.data ev2.
Proof.
  intros (o1' & [= <-] & Hd1 & _)%eventSchema_inv
         (o2' & [= <-] & Hd2 & _)%eventSchema_inv Hdata.
  rewrite Hdata in Hd1. congruence.
Qed.

(** C10: two bodies with the same [data] that the schema accepts,
    whatever their [type] strings, get the same response, leave the
    same store and have the same operations sent, from each of the
    three handlers (the second reads [data] only and needs no
    validation). *)
Theorem POST_ignores_type o1 o2 ev1 ev2 st :
  webhookSchema (Some (JObj o1)) = Some ev1 →
  webhookSchema (Some (JObj o2)) = Some ev2 →
  get_prop "data" o1 = get_prop "data" o2 →
  POST (WithBody (JObj o1)) st = POST (WithBody (JObj o2)) st
  ∧ POST2 (WithBody (JObj o1)) st = POST2 (WithBody (JObj o2)) st
  ∧ (∀ ev1' ev2',
       webhookSchema3 (Some (JObj o1)) = Some ev1' →
       webhookSchema3 (Some (JObj o2)) = Some ev2' →
       POST3 (WithBody (JObj o1)) st = POST3 (WithBody (JObj o2)) st).
Proof.
  intros H1 H2 Hdata. split; [|split].
  - unfold POST, try_catch, POST_try. rewrite H1, H2.
    by rewrite (eventSchema_same_data _ _ _ _ _ H1 H2 Hdata).
  - unfold POST2, try_catch, POST2_try, js_get. by rewrite Hdata.
  - intros ev1' ev2' H1' H2'.
    unfold POST3, try_catch, POST3_try. rewrite H1', H2'.
    by rewrite (eventSchema_same_data _ _ _ _ _ H1' H2' Hdata).
Qed.

(** *** The user upsert *)

Lemma set_nullable_column_of {A} (v : nullish A) (old : option A) :
  v ≠ Undefined → set_nullable v old = column_of v.
Proof. by destruct v. Qed.

(** The row [userData] writes, column by column. *)
Lemma user_row_columns data primaryEmail :
  RawUser.external_id data ≠ Undefined →
  let u := userData data primaryEmail in
  user_row data primaryEmail
  = {| User.id := RawUser.id data;
       User.emailAddress := EmailAddress.email_address primaryEmail;
       User.firstName := column_of (UserInput.firstName u);
       User.lastName := column_of (UserInput.lastName u);
       User.imageUrl := column_of (UserInput.imageUrl u);
       User.emailVerified :=
         bool_decide (Verification.status (EmailAddress.verification primaryEmail)
                      = "verified");
       User.createdAtClerk := new_Date (RawUser.created_at data);
       User.updatedAtClerk := new_Date (RawUser.updated_at data);
       User.banned := RawUser.banned data;
       User.externalId := column_of (RawUser.external_id data);
       User.oauthProvider := column_of (UserInput.oauthProvider u);
       User.oauthId := column_of (UserInput.oauthId u);
       User.oauthScopes := column_of (UserInput.oauthScopes u) |}.
Proof.
  intros Hext. cbv zeta. unfold user_row, write_user, userData.
  cbn -[coalesce opt_chain].
  f_equal; try (apply set_nullable_column_of; first [done|apply coalesce_Null_not_Undefined]).
  by destruct (externalAccount data).
Qed.

(** C5, as the handlers have it.  In the first and the third document
    the upsert of a validated event over a stored row leaves the row a
    fresh insert of the event makes: every column takes the event's
    value, null included, and nothing of the old row is kept.  In the
    second document the update writes [emailAddress], and [firstName],
    [lastName] and [imageUrl] only when the event has a value for them:
    a null or absent one leaves the stored column as it was, as are all
    the other columns. *)
Theorem user_upsert_overwrites rawBody ev primaryEmail tbl old :
  webhookSchema (Some rawBody) = Some ev ∨ webhookSchema3 (Some rawBody) = Some ev →
  tbl !! RawUser.id (IncomingEvent.data ev) = Some old →
  let data := IncomingEvent.data ev in
  let u := userData data primaryEmail in
  let row :=
    {| User.id := RawUser.id data;
       User.emailAddress := EmailAddress.email_address primaryEmail;
       User.firstName := column_of (UserInput.firstName u);
       User.lastName := column_of (UserInput.lastName u);
       User.imageUrl := column_of (UserInput.imageUrl u);
       User.emailVerified :=
         bool_decide (Verification.status (EmailAddress.verification primaryEmail)
                      = "verified");
       User.createdAtClerk := new_Date (RawUser.created_at data);
       User.updatedAtClerk := new_Date (RawUser.updated_at data);
       User.banned := RawUser.banned data;
       User.externalId := column_of (RawUser.external_id data);
       User.oauthProvider := column_of (UserInput.oauthProvider u);
       User.oauthId := column_of (UserInput.oauthId u);
       User.oauthScopes := column_of (UserInput.oauthScopes u) |} in
  user_upsert (RawUser.id data) u u tbl = (row, <[RawUser.id data := row]> tbl)
  ∧ (∀ tbl0, tbl0 !! RawUser.id data = None →
             user_upsert (RawUser.id data) u u tbl0 = (row, <[RawUser.id data := row]> tbl0))
  ∧ ∀ emailAddress firstName lastName imageUrl,
      (user_upsert (RawUser.id data)
         (update2 emailAddress firstName lastName imageUrl)
         (create2 (RawUser.id data) emailAddress firstName lastName imageUrl) tbl).1
      = {| User.id := User.id old;
           User.emailAddress := emailAddress;
           User.firstName :=
             match firstName with Val s => Some s | _ => User.firstName old end;
           User.lastName :=
             match lastName with Val s => Some s | _ => User.lastName old end;
           User.imageUrl :=
             match imageUrl with Val s => Some s | _ => User.imageUrl old end;
           User.emailVerified := User.emailVerified old;
           User.createdAtClerk := User.createdAtClerk old;
           User.updatedAtClerk := User.updatedAtClerk old;
           User.banned := User.banned old;
           User.externalId := User.externalId old;
           User.oauthProvider := User.oauthProvider old;
           User.oauthId := User.oauthId old;
           User.oauthScopes := User.oauthScopes old |}.
Proof.
  intros Hparse Hold.
  assert (RawUser.external_id (IncomingEvent.data ev) ≠ Undefined) as Hext.
  { assert (payload_typed rawBody ev) as Htyped
      by (destruct Hparse; by eapply eventSchema_typed).
    unfold payload_typed in Htyped. tauto. }
  cbv zeta. rewrite <- (user_row_columns _ primaryEmail Hext).
  split; [|split].
  - by apply user_upsert_userData.
  - intros tbl0 _. by apply user_upsert_userData.
  - intros emailAddress firstName lastName imageUrl.
    unfold user_upsert. rewrite Hold. cbn.
    unfold write_user; cbn. f_equal.
    + by destruct firstName.
    + by destruct lastName.
    + by destruct imageUrl.
Qed.

End Properties.

(** ** The rest of the handlers *)

Section Coverage.

Context {ext : Externals}.

(** *** Statuses *)

Lemma errorInfo_status_cases (code : string) :
  init_status (errorInfo code).1 ∈ [200; 400; 409; 500].
Proof.
  unfold errorInfo, prismaErrors; cbn.
  repeat case_decide; cbn; rewrite !elem_of_cons; auto 10.
Qed.

Lemma catch_blocks_same_status (e : Thrown) :
  status (catch_block3 e) = status (catch_block e).
Proof. by destruct e. Qed.

Lemma POST_try_Ok_status req st r st' ops :
  POST_try req st = Ok r st' ops → status r = 200 ∨ status r = 400.
Proof.
  unfold POST_try, db_bind, db_ret, db_throw. intros H.
  repeat case_match; simplify_eq; cbn; auto.
Qed.

Lemma POST3_try_Ok_status req st r st' ops :
  POST3_try req st = Ok r st' ops → status r = 200 ∨ status r = 400.
Proof.
  unfold POST3_try, db_bind, db_ret, db_throw. intros H.
  repeat case_match; simplify_eq; cbn; auto.
Qed.

Lemma POST2_try_Ok_status req st r st' ops :
  POST2_try req st = Ok r st' ops → status r = 200 ∨ status r = 400.
Proof.
  unfold POST2_try, db_bind, db_ret, db_throw. intros H.
  repeat case_match; simplify_eq; cbn; auto.
Qed.

(** The three handlers answer with 200, 400, 409 or 500 and no other
    status, whatever the request and whatever the store does. *)
Theorem POST_status_range (req : Request) (st : Store) :
  status (POST req st).1.1 ∈ [200; 400; 409; 500]
  ∧ status (POST2 req st).1.1 ∈ [200; 400; 409; 500]
  ∧ status (POST3 req st).1.1 ∈ [200; 400; 409; 500].
Proof.
  split; [|split].
  - unfold POST, try_catch.
    destruct (POST_try req st) as [r st' ops|e st' ops] eqn:Hrun; cbn.
    + destruct (POST_try_Ok_status _ _ _ _ _ Hrun) as [->| ->]; set_solver.
    + destruct e as [code message| |]; cbn; [|set_solver..].
      apply errorInfo_status_cases.
  - unfold POST2, try_catch.
    destruct (POST2_try req st) as [r st' ops|e st' ops] eqn:Hrun; cbn.
    + destruct (POST2_try_Ok_status _ _ _ _ _ Hrun) as [->| ->]; set_solver.
    + destruct e as [code message| |]; cbn; [|set_solver..].
      case_decide; cbn; set_solver.
  - unfold POST3, try_catch.
    destruct (POST3_try req st) as [r st' ops|e st' ops] eqn:Hrun; cbn.
    + destruct (POST3_try_Ok_status _ _ _ _ _ Hrun) as [->| ->]; set_solver.
    + destruct e as [code message| |]; cbn; [|set_solver..].
      apply errorInfo_status_cases.
Qed.

(** A request without a body is answered 400 and a body that is not
    JSON (the parse throws an [Error]) is answered 500, by each of the
    three handlers; neither sends an operation nor changes the store. *)
Theorem POST_unusable_body (message : string) (st : Store) :
  (POST NoBody st = (mkResponse 400 (Text "Missing request body"), st, [])
   ∧ POST2 NoBody st = (mkResponse 400 (Text "Missing request body"), st, [])
   ∧ POST3 NoBody st = (mkResponse 400 (Text "Missing request body"), st, []))
  ∧ (POST (Unparsable (Error message)) st
     = (mkResponse 500
          (Stringify (JObj [ ("error", JStr "Internal server error");
                             ("message", JStr message) ])), st, [])
     ∧ POST2 (Unparsable (Error message)) st
       = (mkResponse 500 (Text "Internal server error"), st, [])
     ∧ POST3 (Unparsable (Error message)) st
       = (mkResponse 500
            (Stringify (JObj [ ("error", JStr "Internal server error");
                               ("message", JStr message) ])), st, [])).
Proof. done. Qed.

(** *** The third handler *)

Lemma POST3_try_throw_origin req st e st' ops :
  POST3_try req st = Throw e st' ops →
  (req = Unparsable e ∧ st' = st ∧ ops = [])
  ∨ (∃ earlier op, ops = earlier ++ [op] ∧ db_fault st' op = Some e).
Proof.
  intros Hthrow. destruct req as [|e0|rawBody]; [done| |].
  { left. by injection Hthrow as -> -> <-. }
  right. unfold POST3_try in Hthrow.
  destruct (webhookSchema3 (Some rawBody)) as [ev|] eqn:Hparse; [|done].
  destruct (head (RawUser.email_addresses (IncomingEvent.data ev)))
    as [primaryEmail|] eqn:Hhead; [|done].
  assert (RawUser.external_id (IncomingEvent.data ev) ≠ Undefined) as Hext.
  { apply eventSchema_typed in Hparse. unfold payload_typed in Hparse. tauto. }
  pose proof (persist_run (IncomingEvent.data ev) primaryEmail
                (λ _, mkResponse 200
                        (Stringify (JObj [ ("message", JStr "Webhook processed successfully") ])))
                st Hext) as Hrun.
  cbv beta zeta in Hrun, Hthrow. rewrite Hthrow in Hrun.
  destruct Hrun as [(Hfault & -> & ->)|(_ & sent & email & rest & _ & -> & Hfault & ->)].
  - by exists [], (user_op (IncomingEvent.data ev) primaryEmail).
  - exists (user_op (IncomingEvent.data ev) primaryEmail
            :: (email_op (IncomingEvent.data ev) <$> sent)),
           (email_op (IncomingEvent.data ev) email).
    by rewrite fmap_app.
Qed.

(** An error thrown in the [try] block of the third handler reaches the
    caller as the response of its [catch] block, with the status the
    first handler gives the same error (409 for P2002, 400 for P2014
    and P2003, 500 otherwise) and never 200; for a known store error
    the body holds a fixed text and the code and, unlike the first
    handler's, not the error's own message.  The code of a known error
    is taken to be one of the store's own, not a key of
    [Object.prototype], which the lookup of line 411 would find on the
    prototype chain. *)
Theorem POST3_store_error_status req st e st' ops :
  own_code e →
  POST3_try req st = Throw e st' ops →
  POST3 req st = (catch_block3 e, st', ops)
  ∧ status (catch_block3 e) = status (catch_block e)
  ∧ status (catch_block3 e) ≠ 200
  ∧ ((req = Unparsable e ∧ st' = st ∧ ops = [])
     ∨ (∃ earlier op, ops = earlier ++ [op] ∧ db_fault st' op = Some e))
  ∧ ∀ code message, e = PrismaClientKnownRequestError code message →
      status (catch_block3 e) = spec_status code
      ∧ ∃ text, errorInfo code = (Some (spec_status code), Some text)
                ∧ body (catch_block3 e)
                  = Stringify (JObj [ ("error", JStr text); ("code", JStr code) ]).
Proof.
  intros Hown Hthrow. split; [|split; [|split; [|split]]].
  - unfold POST3, try_catch. by rewrite Hthrow.
  - apply catch_blocks_same_status.
  - by apply catch_block3_not_200.
  - by apply POST3_try_throw_origin.
  - intros code message ->. cbn in Hown |- *.
    destruct (errorInfo_own_code code Hown) as [text Htext]. rewrite Htext. cbn.
    split; [done|]. by exists text.
Qed.

(** The two writes with two different final responses: the same store,
    the same operations and the same outcome. *)
Lemma persist_respond_irrelevant data u (respond1 respond2 : User.t → Response) st :
  match (let* updatedUser := db_user_upsert (RawUser.id data) u u in
         store_emails data ;;; db_ret (respond1 updatedUser)) st,
        (let* updatedUser := db_user_upsert (RawUser.id data) u u in
         store_emails data ;;; db_ret (respond2 updatedUser)) st with
  | Ok r1 st1 ops1, Ok r2 st2 ops2 =>
      st1 = st2 ∧ ops1 = ops2 ∧ ∃ row, r1 = respond1 row ∧ r2 = respond2 row
  | Throw e1 st1 ops1, Throw e2 st2 ops2 => e1 = e2 ∧ st1 = st2 ∧ ops1 = ops2
  | _, _ => False
  end.
Proof.
  unfold db_bind.
  destruct (db_user_upsert _ _ _ st) as [row st1 ops1|e st1 ops1]; [|done].
  destruct (store_emails data st1) as [[] st2 ops2|e st2 ops2]; cbn; eauto.
Qed.

(** On a body that both schemas parse to the same event the first and
    the third handler leave the same store, send the same operations
    and answer with the same status; only the bodies of the responses
    differ. *)
Theorem POST_POST3_agree rawBody ev st :
  webhookSchema (Some rawBody) = Some ev →
  webhookSchema3 (Some rawBody) = Some ev →
  (POST (WithBody rawBody) st).1.2 = (POST3 (WithBody rawBody) st).1.2
  ∧ (POST (WithBody rawBody) st).2 = (POST3 (WithBody rawBody) st).2
  ∧ status (POST (WithBody rawBody) st).1.1 = status (POST3 (WithBody rawBody) st).1.1.
Proof.
  intros H1 H3. unfold POST, POST3, try_catch, POST_try, POST3_try.
  rewrite H1, H3.
  destruct (head (RawUser.email_addresses (IncomingEvent.data ev)))
    as [primaryEmail|]; [|done].
  cbv zeta.
  pose proof (persist_respond_irrelevant (IncomingEvent.data ev)
                (userData (IncomingEvent.data ev) primaryEmail)
                (λ updatedUser,
                   mkResponse 200
                     (Stringify (JObj [ ("message", JStr "Webhook processed successfully");
                                        ("userId", JStr (User.id updatedUser)) ])))
                (λ _, mkResponse 200
                        (Stringify (JObj [ ("message", JStr "Webhook processed successfully") ])))
                st) as Hsame.
  cbv beta zeta in Hsame.
  destruct (db_bind _ _ st) as [r1 st1 ops1|e1 st1 ops1];
    destruct (db_bind _ _ st) as [r3 st3 ops3|e3 st3 ops3]; try done.
  - destruct Hsame as (-> & -> & row & -> & ->). done.
  - destruct Hsame as (-> & -> & ->). cbn. by rewrite catch_blocks_same_status.
Qed.

Lemma POST3_200_inv rawBody st r st' ops :
  store_codes_own →
  POST3 (WithBody rawBody) st = (r, st', ops) →
  status r = 200 →
  ∃ ev primaryEmail,
    webhookSchema3 (Some rawBody) = Some ev
    ∧ head (RawUser.email_addresses (IncomingEvent.data ev)) = Some primaryEmail
    ∧ st' = mkStore
              (<[RawUser.id (IncomingEvent.data ev)
                 := user_row (IncomingEvent.data ev) primaryEmail]> (users st))
              (upsert_emails (IncomingEvent.data ev)
                 (RawUser.email_addresses (IncomingEvent.data ev)) (userEmails st)).
Proof.
  intros Hown Hrun H200.
  destruct (webhookSchema3 (Some rawBody)) as [ev|] eqn:Hparse; last first.
  { unfold POST3, try_catch, POST3_try in Hrun. rewrite Hparse in Hrun.
    injection Hrun as <- _ _. done. }
  destruct (head (RawUser.email_addresses (IncomingEvent.data ev)))
    as [primaryEmail|] eqn:Hhead; last first.
  { unfold POST3, try_catch, POST3_try in Hrun. rewrite Hparse, Hhead in Hrun.
    injection Hrun as <- _ _. done. }
  exists ev, primaryEmail. split; [done|]. split; [done|].
  destruct (POST3_run rawBody ev primaryEmail st Hparse Hhead)
    as [[_ H]|[(e & He & H)|(_ & e & sent & email & rest & _ & He & H)]];
    rewrite H in Hrun; injection Hrun as <- <- <-.
  - done.
  - by destruct (catch_block3_not_200 e (Hown _ _ _ He)).
  - by destruct (catch_block3_not_200 e (Hown _ _ _ He)).
Qed.

(** The third handler is idempotent as the first is: answering 200 to a
    body and 200 to the same body again, it leaves after the second run
    the store the first run left, the store's error codes being its own
    (none a key of [Object.prototype]). *)
Theorem POST3_idempotent rawBody st r1 st1 ops1 r2 st2 ops2 :
  store_codes_own →
  POST3 (WithBody rawBody) st = (r1, st1, ops1) →
  status r1 = 200 →
  POST3 (WithBody rawBody) st1 = (r2, st2, ops2) →
  status r2 = 200 →
  st2 = st1.
Proof.
  intros Hown Hrun1 H1 Hrun2 H2.
  destruct (POST3_200_inv _ _ _ _ _ Hown Hrun1 H1)
    as (ev & primaryEmail & Hparse & Hhead & ->).
  destruct (POST3_200_inv _ _ _ _ _ Hown Hrun2 H2)
    as (ev' & primaryEmail' & Hparse' & Hhead' & ->).
  rewrite Hparse in Hparse'. injection Hparse' as <-.
  rewrite Hhead in Hhead'. injection Hhead' as <-.
  cbn. by rewrite insert_insert_eq, upsert_emails_idempotent.
Qed.

(** *** What a run leaves in the store *)

Lemma entry_steps_other data k emails row :
  k ∉ email_ids emails → foldl (entry_step data k) row emails = row.
Proof.
  revert row. induction emails as [|email rest IH]; intros row Hk; [done|].
  cbn in Hk |- *. apply not_elem_of_cons in Hk as [Hne Hrest].
  rewrite entry_step_other by done. by apply IH.
Qed.

Lemma entry_steps_created data k emails :
  foldl (entry_step data k) None emails = None
  ∨ ∃ row, foldl (entry_step data k) None emails = Some row
           ∧ UserEmail.id row = k
           ∧ UserEmail.userId row = RawUser.id data.
Proof.
  induction emails as [|email rest IH]; [by left|].
  cbn. destruct (decide (EmailAddress.id email = k)) as [Hk|Hk].
  - right. rewrite (entry_step_same _ _ _ _ Hk).
    destruct (entry_steps_frame data k rest (email_create data email))
      as (new & -> & Hid & Huser).
    exists new. by rewrite Hid, Huser.
  - by rewrite (entry_step_other _ _ _ _ Hk).
Qed.

(** The last entry of the loop with a given id decides the row. *)
Lemma entry_steps_last data before email after row :
  EmailAddress.id email ∉ email_ids after →
  foldl (entry_step data (EmailAddress.id email)) row (before ++ email :: after)
  = Some match row with
         | Some old => write_userEmail (email_update email) old
         | None => email_create data email
         end.
Proof.
  intros Hafter. rewrite foldl_app. cbn.
  rewrite entry_step_same by done. rewrite entry_steps_other by done.
  f_equal. destruct row as [old|].
  - destruct (entry_steps_frame data (EmailAddress.id email) before old)
      as (new & -> & Hid & Huser).
    by apply write_userEmail_frame.
  - destruct (entry_steps_created data (EmailAddress.id email) before)
      as [->|(new & -> & Hid & Huser)]; [done|].
    unfold write_userEmail, email_create, email_update; cbn.
    by rewrite Hid, Huser.
Qed.

(** The store a run of the first handler can leave: the one it found,
    or that one with the user row written and the upserts of a prefix
    of the email entries done. *)
Lemma POST_store_shape req st r st' ops :
  POST req st = (r, st', ops) →
  st' = st
  ∨ ∃ rawBody ev primaryEmail sent rest,
      req = WithBody rawBody
      ∧ webhookSchema (Some rawBody) = Some ev
      ∧ head (RawUser.email_addresses (IncomingEvent.data ev)) = Some primaryEmail
      ∧ RawUser.email_addresses (IncomingEvent.data ev) = sent ++ rest
      ∧ st' = mkStore
                (<[RawUser.id (IncomingEvent.data ev)
                   := user_row (IncomingEvent.data ev) primaryEmail]> (users st))
                (upsert_emails (IncomingEvent.data ev) sent (userEmails st)).
Proof.
  intros Hrun.
  destruct req as [|e|rawBody]; [left; by injection Hrun..|].
  destruct (webhookSchema (Some rawBody)) as [ev|] eqn:Hparse; last first.
  { unfold POST, try_catch, POST_try in Hrun. rewrite Hparse in Hrun.
    left. by injection Hrun. }
  destruct (head (RawUser.email_addresses (IncomingEvent.data ev)))
    as [primaryEmail|] eqn:Hhead; last first.
  { unfold POST, try_catch, POST_try in Hrun. rewrite Hparse, Hhead in Hrun.
    left. by injection Hrun. }
  destruct (POST_run rawBody ev primaryEmail st Hparse Hhead)
    as [[_ H]|[(e & _ & H)|(_ & e & sent & email & rest & Hsplit & _ & H)]];
    rewrite H in Hrun; injection Hrun as <- <- <-.
  - right. exists rawBody, ev, primaryEmail,
      (RawUser.email_addresses (IncomingEvent.data ev)), [].
    by rewrite app_nil_r.
  - by left.
  - right. by exists rawBody, ev, primaryEmail, sent, (email :: rest).
Qed.

Lemma POST3_store_shape req st r st' ops :
  POST3 req st = (r, st', ops) →
  st' = st
  ∨ ∃ rawBody ev primaryEmail sent rest,
      req = WithBody rawBody
      ∧ webhookSchema3 (Some rawBody) = Some ev
      ∧ head (RawUser.email_addresses (IncomingEvent.data ev)) = Some primaryEmail
      ∧ RawUser.email_addresses (IncomingEvent.data ev) = sent ++ rest
      ∧ st' = mkStore
                (<[RawUser.id (IncomingEvent.data ev)
                   := user_row (IncomingEvent.data ev) primaryEmail]> (users st))
                (upsert_emails (IncomingEvent.data ev) sent (userEmails st)).
Proof.
  intros Hrun.
  destruct req as [|e|rawBody]; [left; by injection Hrun..|].
  destruct (webhookSchema3 (Some rawBody)) as [ev|] eqn:Hparse; last first.
  { unfold POST3, try_catch, POST3_try in Hrun. rewrite Hparse in Hrun.
    left. by injection Hrun. }
  destruct (head (RawUser.email_addresses (IncomingEvent.data ev)))
    as [primaryEmail|] eqn:Hhead; last first.
  { unfold POST3, try_catch, POST3_try in Hrun. rewrite Hparse, Hhead in Hrun.
    left. by injection Hrun. }
  destruct (POST3_run rawBody ev primaryEmail st Hparse Hhead)
    as [[_ H]|[(e & _ & H)|(_ & e & sent & email & rest & Hsplit & _ & H)]];
    rewrite H in Hrun; injection Hrun as <- <- <-.
  - right. exists rawBody, ev, primaryEmail,
      (RawUser.email_addresses (IncomingEvent.data ev)), [].
    by rewrite app_nil_r.
  - by left.
  - right. by exists rawBody, ev, primaryEmail, sent, (email :: rest).
Qed.

Lemma shape_leaves_other_rows data primaryEmail sent rest st :
  RawUser.email_addresses data = sent ++ rest →
  let st' := mkStore (<[RawUser.id data := user_row data primaryEmail]> (users st))
               (upsert_emails data sent (userEmails st)) in
  (∀ k, k ≠ RawUser.id data → users st' !! k = users st !! k)
  ∧ (∀ k, k ∉ email_ids (RawUser.email_addresses data) →
          userEmails st' !! k = userEmails st !! k).
Proof.
  intros Hsplit. cbn. split.
  - intros k Hk. by rewrite lookup_insert_ne.
  - intros k Hk. rewrite upsert_emails_lookup. apply entry_steps_other.
    rewrite Hsplit in Hk. unfold email_ids in *. rewrite fmap_app in Hk.
    by apply not_elem_of_app in Hk as [? _].
Qed.

(** A run of the first or of the third handler on an accepted event
    touches no row of another user, and no [userEmail] row whose id is
    not among the ids of the event's entries, whether the run ends well
    or is cut short by the store. *)
Theorem POST_leaves_other_rows rawBody ev st r st' ops :
  (webhookSchema (Some rawBody) = Some ev ∧ POST (WithBody rawBody) st = (r, st', ops))
  ∨ (webhookSchema3 (Some rawBody) = Some ev
     ∧ POST3 (WithBody rawBody) st = (r, st', ops)) →
  (∀ k, k ≠ RawUser.id (IncomingEvent.data ev) → users st' !! k = users st !! k)
  ∧ (∀ k, k ∉ email_ids (RawUser.email_addresses (IncomingEvent.data ev)) →
          userEmails st' !! k = userEmails st !! k).
Proof.
  intros [[Hparse Hrun]|[Hparse Hrun]].
  - destruct (POST_store_shape _ _ _ _ _ Hrun)
      as [->|(rawBody' & ev' & primaryEmail & sent & rest & [= <-] & Hparse' & _ & Hsplit & ->)];
      [done|].
    rewrite Hparse in Hparse'. injection Hparse' as <-.
    by apply shape_leaves_other_rows with rest.
  - destruct (POST3_store_shape _ _ _ _ _ Hrun)
      as [->|(rawBody' & ev' & primaryEmail & sent & rest & [= <-] & Hparse' & _ & Hsplit & ->)];
      [done|].
    rewrite Hparse in Hparse'. injection Hparse' as <-.
    by apply shape_leaves_other_rows with rest.
Qed.

(** After a 200 of the first handler, the [userEmail] row of an id is
    decided by the last entry of [email_addresses] that carries it: a
    row that was not there is created from that entry with [userId]
    equal to [data.id]; a row that was there takes the entry's address,
    status and strategy and keeps its [id] and [userId].  The store's
    error codes are taken to be its own (none a key of
    [Object.prototype]), so that a 200 is the answer of a complete
    run. *)
Theorem POST_stores_last_entry rawBody ev st r st' ops before email after :
  store_codes_own →
  webhookSchema (Some rawBody) = Some ev →
  POST (WithBody rawBody) st = (r, st', ops) →
  status r = 200 →
  RawUser.email_addresses (IncomingEvent.data ev) = before ++ email :: after →
  EmailAddress.id email ∉ email_ids after →
  userEmails st' !! EmailAddress.id email
  = Some match userEmails st !! EmailAddress.id email with
         | Some old => write_userEmail (email_update email) old
         | None => email_create (IncomingEvent.data ev) email
         end.
Proof.
  intros Hown Hparse Hrun H200 Hsplit Hafter.
  destruct (POST_200_inv _ _ _ _ _ Hown Hrun H200)
    as (ev' & primaryEmail & Hparse' & _ & ->).
  rewrite Hparse in Hparse'. injection Hparse' as <-.
  cbn. rewrite upsert_emails_lookup, Hsplit. by apply entry_steps_last.
Qed.

(** After a 200 of the first handler the stored user row takes its
    [emailAddress] and [emailVerified] from the first entry of
    [email_addresses] alone: [emailVerified] is true exactly when that
    entry's status is the string "verified"; the two dates are
    [new Date] of the event's numbers.  The store's error codes are
    taken to be its own (none a key of [Object.prototype]), so that a
    200 is the answer of a complete run. *)
Theorem POST_stores_primary_email rawBody ev st r st' ops :
  store_codes_own →
  webhookSchema (Some rawBody) = Some ev →
  POST (WithBody rawBody) st = (r, st', ops) →
  status r = 200 →
  ∃ primaryEmail rest row,
    RawUser.email_addresses (IncomingEvent.data ev) = primaryEmail :: rest
    ∧ users st' !! RawUser.id (IncomingEvent.data ev) = Some row
    ∧ User.id row = RawUser.id (IncomingEvent.data ev)
    ∧ User.emailAddress row = EmailAddress.email_address primaryEmail
    ∧ (User.emailVerified row = true
       ↔ Verification.status (EmailAddress.verification primaryEmail) = "verified")
    ∧ User.createdAtClerk row = new_Date (RawUser.created_at (IncomingEvent.data ev))
    ∧ User.updatedAtClerk row = new_Date (RawUser.updated_at (IncomingEvent.data ev))
    ∧ User.banned row = RawUser.banned (IncomingEvent.data ev).
Proof.
  intros Hown Hparse Hrun H200.
  destruct (POST_200_inv _ _ _ _ _ Hown Hrun H200)
    as (ev' & primaryEmail & Hparse' & Hhead & ->).
  rewrite Hparse in Hparse'. injection Hparse' as <-.
  destruct (RawUser.email_addresses (IncomingEvent.data ev)) as [|first rest] eqn:Hemails;
    [done|].
  injection Hhead as ->.
  exists primaryEmail, rest, (user_row (IncomingEvent.data ev) primaryEmail).
  cbn. rewrite lookup_insert_eq. repeat split; try done.
  - by intros ?%bool_decide_eq_true.
  - intros Hstatus. by apply bool_decide_eq_true.
Qed.


(** *** What the schemas reject, and how the two revisions differ *)

Ltac split_binds :=
  repeat match goal with
         | H : _ ≫= _ = Some _ |- _ => apply bind_Some in H as (? & ? & ?)
         | H : Some _ = Some _ |- _ => apply (inj Some) in H
         end.

Lemma eventSchema_raw_emails name rawBody ev :
  eventSchema name (Some rawBody) = Some ev →
  ∃ items,
    raw_email_addresses rawBody = Some (JArr items)
    ∧ Forall2 (λ x y, emailAddressSchema (Some x) = Some y) items
        (RawUser.email_addresses (IncomingEvent.data ev)).
Proof.
  intros (o & [= ->] & (d & Hd & _ & Hemails & _)%dataSchema_inv & _)%eventSchema_inv.
  unfold raw_email_addresses; cbn. rewrite Hd; cbn.
  apply z_array_inv in Hemails as (items & -> & Hall). eauto.
Qed.

Lemma eventSchema_rejects_malformed_email name rawBody items item address :
  raw_email_addresses rawBody = Some (JArr items) →
  item ∈ items →
  js_get item "email_address" = Some (JStr address) →
  is_email address = false →
  eventSchema name (Some rawBody) = None.
Proof.
  intros Hraw Hitem Haddress Hbad.
  destruct (eventSchema name (Some rawBody)) as [ev|] eqn:Hparse; [|done].
  exfalso.
  apply eventSchema_raw_emails in Hparse as (items' & Hraw' & Hall).
  rewrite Hraw in Hraw'. injection Hraw' as <-.
  apply list_elem_of_lookup in Hitem as [i Hi].
  destruct (Forall2_lookup_l _ _ _ _ _ Hall Hi) as (y & _ & Hy).
  unfold emailAddressSchema, z_object in Hy.
  destruct item as [| | | | |o]; try done.
  split_binds.
  match goal with
  | H : z_refine is_email z_string _ = Some _ |- _ =>
      apply z_refine_inv in H as [Hs%z_string_inv Hok]
  end.
  cbn in Haddress. rewrite Haddress in Hs. injection Hs as <-. congruence.
Qed.

(** One entry of [email_addresses] whose [email_address] is a string
    that fails the email check, wherever it stands in the array, makes
    the first and the third handler answer 400 with the schema's issues,
    send nothing to the store and leave it as it was. *)
Theorem POST_rejects_malformed_email rawBody items item address st :
  raw_email_addresses rawBody = Some (JArr items) →
  item ∈ items →
  js_get item "email_address" = Some (JStr address) →
  is_email address = false →
  POST (WithBody rawBody) st
  = (mkResponse 400
       (Stringify (JObj [ ("error", JStr "Invalid webhook payload");
                          ("details", zod_format rawBody) ])), st, [])
  ∧ POST3 (WithBody rawBody) st
    = (mkResponse 400
         (Stringify (JObj [ ("error", JStr "Invalid webhook payload");
                            ("details", zod_errors rawBody) ])), st, []).
Proof.
  intros Hraw Hitem Haddress Hbad. split.
  - unfold POST, try_catch, POST_try, webhookSchema.
    by rewrite (eventSchema_rejects_malformed_email _ _ _ _ _ Hraw Hitem Haddress Hbad).
  - unfold POST3, try_catch, POST3_try, webhookSchema3.
    by rewrite (eventSchema_rejects_malformed_email _ _ _ _ _ Hraw Hitem Haddress Hbad).
Qed.

Lemma z_array_agree {T} (s1 s2 : Schema T) (P : T → Prop) v l :
  (∀ x y, s1 x = Some y → P y → s2 x = Some y) →
  z_array s1 v = Some l → Forall P l → z_array s2 v = Some l.
Proof.
  intros Hagree (items & -> & Hall)%z_array_inv HP.
  unfold z_array. apply mapM_Some.
  induction Hall as [|x y xs ys Hx _ IH]; [constructor|].
  apply Forall_cons in HP as [Hy Hys]. constructor; [by apply Hagree|by apply IH].
Qed.

Lemma z_optional_array_agree {T} (s1 s2 : Schema (list T)) v l :
  (∀ accounts, l = Some accounts → s1 v = Some accounts → s2 v = Some accounts) →
  z_optional_array s1 v = Some l → z_optional_array s2 v = Some l.
Proof.
  unfold z_optional_array. intros Hagree. destruct v as [j|]; [|done].
  intros (accounts & H1 & ->)%fmap_Some. by rewrite (Hagree accounts eq_refl H1).
Qed.

(** An account that one schema of the names accepts is accepted by the
    other when the other agrees on its two names. *)
Lemma externalAccountSchema_agree name1 name2 v a :
  (∀ x, name1 x = Some (ExternalAccount.given_name a) →
        name2 x = Some (ExternalAccount.given_name a)) →
  (∀ x, name1 x = Some (ExternalAccount.family_name a) →
        name2 x = Some (ExternalAccount.family_name a)) →
  externalAccountSchema name1 v = Some a → externalAccountSchema name2 v = Some a.
Proof.
  intros Hgiven Hfamily. unfold externalAccountSchema, z_object.
  destruct v as [[| | | | |o]|]; try done.
  intros H. split_binds. subst a. cbn in Hgiven, Hfamily.
  repeat match goal with
         | H : name1 _ = Some _ |- _ => first [apply Hgiven in H|apply Hfamily in H]
         end.
  repeat match goal with
         | H : _ = Some _ |- _ => rewrite H; clear H; cbn
         end.
  done.
Qed.

Lemma dataSchema_agree name1 name2 (P : ExternalAccount.t → Prop) v data :
  (∀ x a, externalAccountSchema name1 x = Some a → P a →
          externalAccountSchema name2 x = Some a) →
  match RawUser.external_accounts data with
  | Some accounts => Forall P accounts
  | None => True
  end →
  dataSchema name1 v = Some data → dataSchema name2 v = Some data.
Proof.
  intros Hagree HP. unfold dataSchema, z_object.
  destruct v as [[| | | | |o]|]; try done.
  intros H. split_binds. subst data. cbn in HP.
  match goal with
  | H : z_optional_array _ _ = Some _ |- _ =>
      eapply (z_optional_array_agree _ (z_array (externalAccountSchema name2))) in H
  end.
  2:{ intros accounts -> Harr. by eapply z_array_agree. }
  repeat match goal with
         | H : _ = Some _ |- _ => rewrite H; clear H; cbn
         end.
  done.
Qed.

Lemma eventSchema_agree name1 name2 (P : ExternalAccount.t → Prop) v ev :
  (∀ x a, externalAccountSchema name1 x = Some a → P a →
          externalAccountSchema name2 x = Some a) →
  match RawUser.external_accounts (IncomingEvent.data ev) with
  | Some accounts => Forall P accounts
  | None => True
  end →
  eventSchema name1 v = Some ev → eventSchema name2 v = Some ev.
Proof.
  intros Hagree HP. unfold eventSchema, z_object.
  destruct v as [[| | | | |o]|]; try done.
  intros H. split_binds. subst ev. cbn in HP.
  match goal with
  | H : dataSchema name1 _ = Some _ |- _ =>
      apply (dataSchema_agree _ name2 P) in H; [rewrite H; cbn|done..]
  end.
  match goal with
  | H : z_string _ = Some _ |- _ => by rewrite H
  end.
Qed.

Lemma z_nullable_string_present v x : z_nullable z_string v = Some x → x ≠ Undefined.
Proof. by intros [[_ ->]|(y & _ & ->)]%z_nullable_inv. Qed.

Lemma z_nullable_string_weaken v x :
  z_nullable z_string v = Some x → z_nullable_optional z_string v = Some x.
Proof. unfold z_nullable_optional. by destruct v. Qed.

Lemma z_nullable_string_strengthen v x :
  z_nullable_optional z_string v = Some x → x ≠ Undefined →
  z_nullable z_string v = Some x.
Proof. unfold z_nullable_optional. destruct v; [done|]. by intros [= <-]. Qed.

Lemma externalAccountSchema3_names v a :
  externalAccountSchema (z_nullable z_string) v = Some a →
  ExternalAccount.given_name a ≠ Undefined ∧ ExternalAccount.family_name a ≠ Undefined.
Proof.
  unfold externalAccountSchema, z_object. destruct v as [[| | | | |o]|]; try done.
  intros H. split_binds. subst a. cbn.
  split; by eapply z_nullable_string_present.
Qed.

Lemma webhookSchema3_names_present rawBody ev :
  webhookSchema3 (Some rawBody) = Some ev → names_present (IncomingEvent.data ev).
Proof.
  unfold webhookSchema3.
  intros (o & _ & (d & _ & _ & _ & Haccounts & _)%dataSchema_inv & _)%eventSchema_inv.
  unfold names_present. unfold z_optional_array in Haccounts.
  destruct (get_prop "external_accounts" d) as [j|].
  - apply fmap_Some in Haccounts as (accounts & (xs & _ & Hxs)%z_array_inv & ->).
    induction Hxs as [|x a xs' accounts' Hx _ IH]; constructor; [|done].
    by eapply externalAccountSchema3_names.
  - by injection Haccounts as <-.
Qed.

Lemma webhookSchema3_weaken rawBody ev :
  webhookSchema3 (Some rawBody) = Some ev → webhookSchema (Some rawBody) = Some ev.
Proof.
  unfold webhookSchema, webhookSchema3.
  apply (eventSchema_agree _ _ (λ _, True)).
  - intros x a Ha _. revert Ha.
    apply externalAccountSchema_agree; intros y; apply z_nullable_string_weaken.
  - destruct (RawUser.external_accounts _); [|done]. by apply Forall_true.
Qed.

(** The schema of the third document accepts exactly the payloads that
    the schema of the first accepts and in which every external account
    has both [given_name] and [family_name] (null or a string), with
    the same parsed event: making the two names optional is all the
    first revision adds. *)
Theorem webhookSchema_revisions (rawBody : Json) (ev : IncomingEvent.t) :
  webhookSchema3 (Some rawBody) = Some ev
  ↔ webhookSchema (Some rawBody) = Some ev ∧ names_present (IncomingEvent.data ev).
Proof.
  split.
  - intros H. split; [by apply webhookSchema3_weaken|by eapply webhookSchema3_names_present].
  - intros [H Hnames].
    revert H. unfold webhookSchema, webhookSchema3. apply (eventSchema_agree _ _
      (λ a, ExternalAccount.given_name a ≠ Undefined
            ∧ ExternalAccount.family_name a ≠ Undefined)); [|done].
    intros x a Ha [Hgiven Hfamily]. revert Ha.
    apply externalAccountSchema_agree; intros y Hy;
      by apply z_nullable_string_strengthen.
Qed.

Lemma eventSchema_requires_keys name rawBody key :
  js_get rawBody "data" = None
  ∨ js_get rawBody "type" = None
  ∨ (key ∈ required_keys ∧ opt_get (js_get rawBody "data") key = None) →
  eventSchema name (Some rawBody) = None.
Proof.
  intros Hmissing.
  destruct (eventSchema name (Some rawBody)) as [ev|] eqn:Hparse; [|done].
  exfalso. unfold eventSchema, z_object in Hparse.
  destruct rawBody as [| | | | |o]; try done.
  split_binds. cbn in Hmissing.
  destruct Hmissing as [Hdata|[Htype|[Hkey Hnone]]].
  - match goal with H : dataSchema _ _ = Some _ |- _ => by rewrite Hdata in H end.
  - match goal with H : z_string _ = Some _ |- _ => by rewrite Htype in H end.
  - match goal with H : dataSchema _ _ = Some _ |- _ => revert H end.
    unfold dataSchema, z_object.
    destruct (get_prop "data" o) as [[| | | | |d]|]; try done.
    cbn in Hnone. intros H. split_binds.
    unfold required_keys in Hkey.
    repeat (apply elem_of_cons in Hkey as [->|Hkey];
            [match goal with
             | H : _ (get_prop _ d) = Some _ |- _ => by rewrite Hnone in H
             end|]).
    by apply elem_of_nil in Hkey.
Qed.

(** A body without [data], without [type], or whose [data] lacks one of
    the keys [id], [email_addresses], [first_name], [last_name],
    [image_url], [created_at], [updated_at], [banned], [external_id]
    (a nullable field must still be present, as [null]) is answered 400
    by the first and the third handler, with nothing sent to the store:
    [type] is required although nothing reads it afterwards. *)
Theorem POST_requires_keys rawBody key st :
  js_get rawBody "data" = None
  ∨ js_get rawBody "type" = None
  ∨ (key ∈ required_keys ∧ opt_get (js_get rawBody "data") key = None) →
  (∃ r, POST (WithBody rawBody) st = (r, st, []) ∧ status r = 400)
  ∧ (∃ r, POST3 (WithBody rawBody) st = (r, st, []) ∧ status r = 400).
Proof.
  intros Hmissing. split.
  - unfold POST, try_catch, POST_try, webhookSchema.
    rewrite (eventSchema_requires_keys _ _ _ Hmissing). by eexists.
  - unfold POST3, try_catch, POST3_try, webhookSchema3.
    rewrite (eventSchema_requires_keys _ _ _ Hmissing). by eexists.
Qed.

(** *** The second handler *)

Lemma prisma_String_Val v s : prisma_String v = Some (Val s) → v = Some (JStr s).
Proof. destruct v as [[]|]; cbn; congruence. Qed.

Lemma catch_block2_not_200 (e : Thrown) : status (catch_block2 e) ≠ 200.
Proof. destruct e as [code message| |]; cbn; try done. by case_decide. Qed.

(** The ways a run of the second handler can go: nothing sent and the
    store untouched, or its one upsert sent, for an id and an address
    that are strings, and either rejected or applied. *)
Lemma POST2_cases req st r st' ops :
  POST2 req st = (r, st', ops) →
  (st' = st ∧ ops = [] ∧ status r ≠ 200)
  ∨ ∃ rawBody id emailAddress firstName lastName imageUrl,
      req = WithBody rawBody
      ∧ raw_id rawBody = Some (JStr id)
      ∧ raw_primary_address rawBody = Some (JStr emailAddress)
      ∧ prisma_String (opt_get (js_get rawBody "data") "first_name") = Some firstName
      ∧ prisma_String (opt_get (js_get rawBody "data") "last_name") = Some lastName
      ∧ prisma_String (opt_get (js_get rawBody "data") "image_url") = Some imageUrl
      ∧ ops = [user_op2 id emailAddress firstName lastName imageUrl]
      ∧ ((∃ e, db_fault st (user_op2 id emailAddress firstName lastName imageUrl) = Some e
               ∧ r = catch_block2 e ∧ st' = st)
         ∨ (db_fault st (user_op2 id emailAddress firstName lastName imageUrl) = None
            ∧ r = mkResponse 200 (Text "Webhook processed successfully")
            ∧ st' = mkStore
                      (user_upsert id
                         (update2 emailAddress firstName lastName imageUrl)
                         (create2 id emailAddress firstName lastName imageUrl)
                         (users st)).2
                      (userEmails st))).
Proof.
  intros Hrun.
  destruct req as [|e|rawBody].
  { left. by injection Hrun as <- <- <-. }
  { left. injection Hrun as <- <- <-. split; [done|]. split; [done|].
    apply catch_block2_not_200. }
  destruct rawBody as [|b|n|s|items|o];
    try (left; by injection Hrun as <- <- <-).
  unfold POST2, try_catch, POST2_try in Hrun. cbv zeta in Hrun.
  fold (raw_id (JObj o)) (raw_primary_address (JObj o)) in Hrun.
  destruct (negb (truthy (js_get (JObj o) "data"))
            || negb (typeof_object (js_get (JObj o) "data")));
    [left; by injection Hrun as <- <- <-|].
  destruct (negb (truthy (raw_id (JObj o)))
            || negb (truthy (raw_primary_address (JObj o))));
    [left; by injection Hrun as <- <- <-|].
  destruct (prisma_String (raw_id (JObj o))) as [[| |id]|] eqn:Hid;
    try (left; by injection Hrun as <- <- <-).
  destruct (prisma_String (raw_primary_address (JObj o))) as [[| |emailAddress]|] eqn:Haddress;
    try (left; by injection Hrun as <- <- <-).
  destruct (prisma_String (opt_get (js_get (JObj o) "data") "first_name"))
    as [firstName|] eqn:Hfirst; [|left; by injection Hrun as <- <- <-].
  destruct (prisma_String (opt_get (js_get (JObj o) "data") "last_name"))
    as [lastName|] eqn:Hlast; [|left; by injection Hrun as <- <- <-].
  destruct (prisma_String (opt_get (js_get (JObj o) "data") "image_url"))
    as [imageUrl|] eqn:Himage; [|left; by injection Hrun as <- <- <-].
  right. exists (JObj o), id, emailAddress, firstName, lastName, imageUrl.
  apply prisma_String_Val in Hid, Haddress.
  do 6 (split; [done|]).
  unfold db_bind, db_user_upsert in Hrun.
  fold (user_op2 id emailAddress firstName lastName imageUrl) in Hrun.
  destruct (db_fault st (user_op2 id emailAddress firstName lastName imageUrl)) as [e|] eqn:Hfault.
  - injection Hrun as <- <- <-. split; [done|]. left. eauto.
  - destruct (user_upsert _ _ _ _) as [row tbl] eqn:Hupsert.
    injection Hrun as <- <- <-. split; [done|]. right. done.
Qed.

(** The second handler sends at most one operation, an upsert on [user]
    keyed by the body's [data.id]; it never writes the [userEmail]
    table; and when its upsert is rejected, or nothing is sent, the
    store is left exactly as it was. *)
Theorem POST2_single_write req st r st' ops :
  POST2 req st = (r, st', ops) →
  userEmails st' = userEmails st
  ∧ (ops = []
     ∨ ∃ rawBody id update create,
         req = WithBody rawBody ∧ raw_id rawBody = Some (JStr id)
         ∧ ops = [UserUpsert id update create])
  ∧ (status r ≠ 200 → st' = st).
Proof.
  intros Hrun.
  destruct (POST2_cases _ _ _ _ _ Hrun)
    as [(-> & -> & _)
       |(rawBody & id & emailAddress & firstName & lastName & imageUrl & -> & Hid & _ & _ & _ & _
         & -> & [(e & _ & -> & ->)|(_ & -> & ->)])].
  - auto.
  - split; [done|]. split; [|done]. right. unfold user_op2. eauto 10.
  - split; [done|]. split; [|done]. right. unfold user_op2. eauto 10.
Qed.

(** The guard of lines 207-211: a body whose [data.id] or whose first
    email address is missing or falsy (null, the empty string, 0,
    false) is answered 400 by the second handler, with nothing sent to
    the store; only the body [null], whose destructuring throws, is
    answered 500. *)
Theorem POST2_requires_id_and_email rawBody st :
  truthy (raw_id rawBody) = false ∨ truthy (raw_primary_address rawBody) = false →
  ∃ r, POST2 (WithBody rawBody) st = (r, st, [])
       ∧ status r = match rawBody with JNull => 500 | _ => 400 end.
Proof.
  intros Hfalsy.
  destruct rawBody as [|b|n|s|items|o]; try by eexists.
  unfold POST2, try_catch, POST2_try. cbv zeta.
  fold (raw_id (JObj o)) (raw_primary_address (JObj o)).
  destruct (negb (truthy (js_get (JObj o) "data"))
            || negb (typeof_object (js_get (JObj o) "data"))); [by eexists|].
  assert (negb (truthy (raw_id (JObj o))) || negb (truthy (raw_primary_address (JObj o)))
          = true) as ->.
  { destruct Hfalsy as [-> | ->]; [done|]. apply orb_true_r. }
  by eexists.
Qed.

(** The second handler does not check types: a body whose [data.id] is
    truthy but not a string (a number, [true], an object), with a first
    email address present, passes its guard, is refused by Prisma's
    argument check and is answered 500, not 400; nothing is sent. *)
Theorem POST2_type_confused_id rawBody v st :
  raw_id rawBody = Some v →
  truthy (Some v) = true →
  (∀ s, v ≠ JStr s) →
  truthy (raw_primary_address rawBody) = true →
  POST2 (WithBody rawBody) st = (mkResponse 500 (Text "Internal server error"), st, []).
Proof.
  intros Hid Htruthy Hnot Haddress.
  destruct rawBody as [|b|n|s|items|o]; try done.
  unfold POST2, try_catch, POST2_try. cbv zeta.
  fold (raw_id (JObj o)) (raw_primary_address (JObj o)).
  assert (∃ d, js_get (JObj o) "data" = Some (JObj d)) as [d Hd].
  { unfold raw_id, opt_get in Hid.
    destruct (js_get (JObj o) "data") as [[| | | | |d]|]; try done. eauto. }
  rewrite Hd, Hid, Htruthy, Haddress. cbn.
  destruct v as [|b|n|s|items|o']; try done.
  by destruct (Hnot s).
Qed.

(** An error thrown in the [try] block of the second handler reaches the
    caller as 409 "User already exists" when it is the store's P2002 and
    as 500 "Internal server error" in every other case (P2014 and P2003
    included); the body is one of these two fixed texts, and since the
    handler has a single write, the store is as the run found it. *)
Theorem POST2_store_error_status req st e st' ops :
  POST2_try req st = Throw e st' ops →
  POST2 req st = (catch_block2 e, st', ops)
  ∧ st' = st
  ∧ (status (catch_block2 e) = 409 ↔ ∃ message, e = PrismaClientKnownRequestError "P2002" message)
  ∧ (catch_block2 e = mkResponse 409 (Text "User already exists")
     ∨ catch_block2 e = mkResponse 500 (Text "Internal server error")).
Proof.
  intros Hthrow.
  assert (POST2 req st = (catch_block2 e, st', ops)) as Hrun.
  { unfold POST2, try_catch. by rewrite Hthrow. }
  split; [done|]. split; [|split].
  - destruct (POST2_cases _ _ _ _ _ Hrun)
      as [(-> & _)|(? & ? & ? & ? & ? & ? & _ & _ & _ & _ & _ & _ & _
                    & [(? & _ & _ & ->)|(_ & H200 & _)])]; [done..|].
    destruct (catch_block2_not_200 e). by rewrite H200.
  - destruct e as [code message| |]; cbn; [|split; [done|by intros [? ?]]..].
    case_decide as Hcode; cbn.
    + subst code. split; [eauto|done].
    + split; [done|]. intros [? [= ?]]. done.
  - destruct e as [code message| |]; cbn; auto. case_decide; auto.
Qed.

Lemma write_update2_idempotent emailAddress firstName lastName imageUrl row :
  write_user (update2 emailAddress firstName lastName imageUrl)
    (write_user (update2 emailAddress firstName lastName imageUrl) row)
  = write_user (update2 emailAddress firstName lastName imageUrl) row.
Proof.
  unfold write_user, update2; cbn.
  f_equal; [by destruct firstName|by destruct lastName|by destruct imageUrl].
Qed.

Lemma write_update2_create2 id emailAddress firstName lastName imageUrl row :
  write_user (update2 emailAddress firstName lastName imageUrl)
    (write_user (create2 id emailAddress firstName lastName imageUrl) row)
  = write_user (create2 id emailAddress firstName lastName imageUrl) row.
Proof.
  unfold write_user, update2, create2; cbn.
  f_equal; [by destruct firstName|by destruct lastName|by destruct imageUrl].
Qed.

(** The table the second handler's upsert leaves, when the row found
    under [id], if any, has that id. *)
Lemma user_upsert2_table id emailAddress firstName lastName imageUrl tbl :
  (∀ row, tbl !! id = Some row → User.id row = id) →
  (user_upsert id (update2 emailAddress firstName lastName imageUrl)
     (create2 id emailAddress firstName lastName imageUrl) tbl).2
  = <[id := match tbl !! id with
            | Some old => write_user (update2 emailAddress firstName lastName imageUrl) old
            | None =>
                write_user (create2 id emailAddress firstName lastName imageUrl)
                  user_defaults
            end]> tbl.
Proof.
  intros Hwf. unfold user_upsert.
  destruct (tbl !! id) as [old|] eqn:Hold; cbn.
  - rewrite (Hwf old eq_refl). by rewrite insert_delete_eq.
  - done.
Qed.

Lemma user_upsert2_idempotent id emailAddress firstName lastName imageUrl tbl :
  (∀ row, tbl !! id = Some row → User.id row = id) →
  let upsert := λ tbl,
    (user_upsert id (update2 emailAddress firstName lastName imageUrl)
       (create2 id emailAddress firstName lastName imageUrl) tbl).2 in
  upsert (upsert tbl) = upsert tbl.
Proof.
  intros Hwf. cbv beta zeta.
  rewrite (user_upsert2_table _ _ _ _ _ tbl Hwf).
  rewrite user_upsert2_table; last first.
  { intros row. rewrite lookup_insert_eq. intros [= <-].
    destruct (tbl !! id) as [old|] eqn:Hold; cbn; [|done]. by apply Hwf. }
  rewrite lookup_insert_eq, insert_insert_eq. f_equal.
  destruct (tbl !! id); [apply write_update2_idempotent|apply write_update2_create2].
Qed.

(** The second handler is idempotent on a store whose user rows are
    stored under their own ids: answering 200 to a body and 200 to the
    same body again, it leaves after the second run the store the first
    run left. *)
Theorem POST2_idempotent rawBody st r1 st1 ops1 r2 st2 ops2 :
  store_wf st →
  POST2 (WithBody rawBody) st = (r1, st1, ops1) →
  status r1 = 200 →
  POST2 (WithBody rawBody) st1 = (r2, st2, ops2) →
  status r2 = 200 →
  st2 = st1.
Proof.
  intros [Hwf _] Hrun1 H1 Hrun2 H2.
  destruct (POST2_cases _ _ _ _ _ Hrun1)
    as [(_ & _ & ?)|(rawBody1 & id & emailAddress & firstName & lastName & imageUrl
                     & [= <-] & Hid & Haddress & Hfirst & Hlast & Himage & _
                     & [(e & _ & -> & _)|(_ & _ & ->)])]; [done| |].
  { by destruct (catch_block2_not_200 e). }
  destruct (POST2_cases _ _ _ _ _ Hrun2)
    as [(_ & _ & ?)|(rawBody2 & id' & emailAddress' & firstName' & lastName' & imageUrl'
                     & [= <-] & Hid' & Haddress' & Hfirst' & Hlast' & Himage' & _
                     & [(e & _ & -> & _)|(_ & _ & ->)])]; [done| |].
  { by destruct (catch_block2_not_200 e). }
  rewrite Hid in Hid'. injection Hid' as <-.
  rewrite Haddress in Haddress'. injection Haddress' as <-.
  rewrite Hfirst in Hfirst'. injection Hfirst' as <-.
  rewrite Hlast in Hlast'. injection Hlast' as <-.
  rewrite Himage in Himage'. injection Himage' as <-.
  cbn. f_equal.
  apply (user_upsert2_idempotent id emailAddress firstName lastName imageUrl (users st)).
  intros row. apply Hwf.
Qed.

(** After a 200 of the second handler on a store whose user rows are
    stored under their own ids, the row of the body's [data.id] is in
    the store with the body's first email address, and every other user
    row is as it was. *)
Theorem POST2_stores_user rawBody st r st' ops :
  store_wf st →
  POST2 (WithBody rawBody) st = (r, st', ops) →
  status r = 200 →
  ∃ id emailAddress row,
    raw_id rawBody = Some (JStr id)
    ∧ raw_primary_address rawBody = Some (JStr emailAddress)
    ∧ users st' !! id = Some row
    ∧ User.id row = id
    ∧ User.emailAddress row = emailAddress
    ∧ ∀ k, k ≠ id → users st' !! k = users st !! k.
Proof.
  intros [Hwf _] Hrun H200.
  destruct (POST2_cases _ _ _ _ _ Hrun)
    as [(_ & _ & ?)|(rawBody1 & id & emailAddress & firstName & lastName & imageUrl
                     & [= <-] & Hid & Haddress & _ & _ & _ & _
                     & [(e & _ & -> & _)|(_ & _ & ->)])]; [done| |].
  { by destruct (catch_block2_not_200 e). }
  exists id, emailAddress. eexists.
  split; [done|]. split; [done|]. cbn.
  rewrite user_upsert2_table by (intros row; apply Hwf).
  rewrite lookup_insert_eq. split; [done|].
  split; [|split].
  - destruct (users st !! id) as [old|] eqn:Hold; cbn; [by apply Hwf|done].
  - by destruct (users st !! id).
  - intros k Hk. by rewrite lookup_insert_ne.
Qed.

(** *** The primary keys *)

Lemma upsert_emails_wf data emails tbl :
  (∀ k row, tbl !! k = Some row → UserEmail.id row = k) →
  ∀ k row, upsert_emails data emails tbl !! k = Some row → UserEmail.id row = k.
Proof.
  intros Hwf k row. rewrite upsert_emails_lookup.
  destruct (tbl !! k) as [old|] eqn:Hold.
  - destruct (entry_steps_frame data k emails old) as (new & -> & Hid & _).
    intros [= <-]. rewrite Hid. by apply Hwf.
  - destruct (entry_steps_created data k emails) as [->|(new & -> & Hid & _)]; [done|].
    by intros [= <-].
Qed.

Lemma shape_wf data primaryEmail sent st :
  store_wf st →
  store_wf (mkStore (<[RawUser.id data := user_row data primaryEmail]> (users st))
              (upsert_emails data sent (userEmails st))).
Proof.
  intros [Husers Hemails]. split; cbn.
  - intros k row. destruct (decide (RawUser.id data = k)) as [<-|Hne].
    + rewrite lookup_insert_eq. by intros [= <-].
    + rewrite lookup_insert_ne by done. apply Husers.
  - by apply upsert_emails_wf.
Qed.

(** The three handlers keep the primary keys: run on a store in which
    every row of [user] and of [userEmail] is stored under its own
    [id], whatever the request and whatever the store rejects, each
    leaves a store in which this still holds. *)
Theorem handlers_keep_store_wf (req : Request) (st : Store) :
  store_wf st →
  store_wf (POST req st).1.2
  ∧ store_wf (POST2 req st).1.2
  ∧ store_wf (POST3 req st).1.2.
Proof.
  intros Hwf. split; [|split].
  - destruct (POST req st) as [[r st'] ops] eqn:Hrun.
    destruct (POST_store_shape _ _ _ _ _ Hrun)
      as [->|(? & ev & primaryEmail & sent & ? & _ & _ & _ & _ & ->)]; [done|].
    by apply shape_wf.
  - destruct (POST2 req st) as [[r st'] ops] eqn:Hrun.
    destruct (POST2_cases _ _ _ _ _ Hrun)
      as [(-> & _)|(? & id & emailAddress & firstName & lastName & imageUrl
                    & _ & _ & _ & _ & _ & _ & _
                    & [(? & _ & _ & ->)|(_ & _ & ->)])]; [done..|].
    destruct Hwf as [Husers Hemails]. split; [|done]. cbn.
    rewrite user_upsert2_table by (intros row; apply Husers).
    intros k row. destruct (decide (id = k)) as [<-|Hne].
    + rewrite lookup_insert_eq. intros [= <-].
      destruct (users st !! id) as [old|] eqn:Hold; cbn; [by apply Husers|done].
    + rewrite lookup_insert_ne by done. apply Husers.
  - destruct (POST3 req st) as [[r st'] ops] eqn:Hrun.
    destruct (POST3_store_shape _ _ _ _ _ Hrun)
      as [->|(? & ev & primaryEmail & sent & ? & _ & _ & _ & _ & ->)]; [done|].
    by apply shape_wf.
Qed.

End Coverage.

(** ** The handlers on the sample payloads *)

Lemma triple_eta {A B C} (x : A * B * C) : x = (x.1.1, x.1.2, x.2).
Proof. by destruct x as [[? ?] ?]. Defined.

(** The sample stores raise no error, or errors of code P2003. *)
Lemma quiet_codes_own : @store_codes_own quiet_ext.
Proof. intros st op e. discriminate. Qed.

Lemma P2003_own message : own_code (PrismaClientKnownRequestError "P2003" message).
Proof.
  cbn. unfold Object_prototype_keys. rewrite !not_elem_of_cons.
  repeat split; try done. apply not_elem_of_nil.
Qed.

Lemma strict_codes_own : @store_codes_own strict_ext.
Proof.
  intros st op e. cbn. destruct op; [done|]. intros [= <-]. apply P2003_own.
Qed.

(** The sample event is accepted and its fields are typed as C4 (as
    amended) says. *)
Lemma webhookSchema_typed_witness :
  ∃ ev,
    @webhookSchema quiet_ext (Some (sample_event "user.created" JNull two_emails)) = Some ev
    ∧ @payload_typed quiet_ext (sample_event "user.created" JNull two_emails) ev.
Proof.
  eexists. split; [vm_compute; reflexivity|].
  apply (@webhookSchema_typed quiet_ext). left. vm_compute. reflexivity.
Defined.

(** The schemas accept a payload whose [data.id] is the empty string and
    whose [data.email_addresses] is the empty array. *)
Lemma webhookSchema_accepts_empty :
  ∃ ev,
    @webhookSchema quiet_ext (Some empty_id_event) = Some ev
    ∧ @webhookSchema3 quiet_ext (Some empty_id_event) = Some ev
    ∧ RawUser.id (IncomingEvent.data ev) = ""
    ∧ RawUser.email_addresses (IncomingEvent.data ev) = [].
Proof. eexists. repeat split; vm_compute; reflexivity. Qed.

(** The empty-array payload is answered 400 and nothing is written. *)
Lemma POST_without_email_witness :
  (∃ r, @POST quiet_ext (WithBody empty_id_event) ada_store = (r, ada_store, [])
        ∧ status r = 400)
  ∧ (∃ r, @POST3 quiet_ext (WithBody empty_id_event) ada_store = (r, ada_store, [])
          ∧ status r = 400).
Proof.
  apply (@POST_without_email_persists_nothing quiet_ext empty_id_event ada_store).
  right. reflexivity.
Defined.

(** The sample event sent twice to a store that accepts everything. *)
Lemma POST_idempotent_witness :
  let req := WithBody (sample_event "user.created" JNull two_emails) in
  let st1 := (@POST quiet_ext req foreign_email_store).1.2 in
  (@POST quiet_ext req st1).1.2 = st1.
Proof.
  cbv zeta.
  set (req := WithBody (sample_event "user.created" JNull two_emails)).
  set (run1 := @POST quiet_ext req foreign_email_store).
  set (run2 := @POST quiet_ext req run1.1.2).
  assert (status run1.1.1 = 200) as H1 by (vm_compute; reflexivity).
  assert (status run2.1.1 = 200) as H2 by (vm_compute; reflexivity).
  exact (proj1 (@POST_idempotent quiet_ext (sample_event "user.created" JNull two_emails)
                  foreign_email_store run1.1.1 run1.1.2 run1.2 run2.1.1 run2.1.2 run2.2
                  quiet_codes_own (triple_eta run1) H1 (triple_eta run2) H2)).
Defined.

(** The sample event sent to a store that accepts everything: one user
    upsert, then one email upsert per entry. *)
Lemma POST_operations_witness :
  ∃ ev primaryEmail,
    @webhookSchema quiet_ext (Some (sample_event "user.created" JNull two_emails)) = Some ev
    ∧ (@POST quiet_ext (WithBody (sample_event "user.created" JNull two_emails))
         empty_store).2
      = user_op (IncomingEvent.data ev) primaryEmail
        :: (email_op (IncomingEvent.data ev)
              <$> RawUser.email_addresses (IncomingEvent.data ev))
    ∧ length (@POST quiet_ext (WithBody (sample_event "user.created" JNull two_emails))
                empty_store).2 = 3%nat.
Proof.
  set (rawBody := sample_event "user.created" JNull two_emails).
  set (run := @POST quiet_ext (WithBody rawBody) empty_store).
  assert (∃ ev, @webhookSchema quiet_ext (Some rawBody) = Some ev) as [ev Hparse]
    by (eexists; vm_compute; reflexivity).
  assert (∃ primaryEmail,
            head (RawUser.email_addresses (IncomingEvent.data ev)) = Some primaryEmail)
    as [primaryEmail Hhead].
  { vm_compute in Hparse. injection Hparse as <-. eexists. reflexivity. }
  assert (status run.1.1 = 200) as H200 by (vm_compute; reflexivity).
  destruct (@POST_operations quiet_ext rawBody ev primaryEmail empty_store
              run.1.1 run.1.2 run.2 Hparse Hhead (triple_eta run))
    as (_ & _ & Hall & _).
  destruct (Hall quiet_codes_own H200) as [Hops Hlen].
  exists ev, primaryEmail. split; [exact Hparse|]. split; [exact Hops|].
  vm_compute. reflexivity.
Defined.


(** The sample event, of [user_1], carries the email [idn_1] that the
    store has under [user_0]: after the run the row is still owned by
    [user_0]. *)
Lemma userEmail_update_keeps_owner_witness :
  let st' := (@POST quiet_ext (WithBody (sample_event "user.created" JNull two_emails))
                foreign_email_store).1.2 in
  ∃ new, userEmails st' !! "idn_1" = Some new
         ∧ UserEmail.id new = "idn_1"
         ∧ UserEmail.userId new = "user_0".
Proof.
  cbv zeta.
  set (run := @POST quiet_ext (WithBody (sample_event "user.created" JNull two_emails))
                foreign_email_store).
  exact (proj1 (@userEmail_update_keeps_owner quiet_ext _ foreign_email_store
                  run.1.1 run.1.2 run.2 "idn_1" foreign_email
                  (or_introl (triple_eta run)) eq_refl)).
Defined.

(** The sample event as [user.created] and as [user.deleted]. *)
Lemma POST_ignores_type_witness :
  @POST quiet_ext (WithBody (sample_event "user.created" JNull two_emails)) ada_store
  = @POST quiet_ext (WithBody (sample_event "user.deleted" JNull two_emails)) ada_store.
Proof.
  assert (∃ ev, @webhookSchema quiet_ext
                  (Some (JObj (sample_props "user.created" JNull two_emails))) = Some ev)
    as [ev1 H1] by (eexists; vm_compute; reflexivity).
  assert (∃ ev, @webhookSchema quiet_ext
                  (Some (JObj (sample_props "user.deleted" JNull two_emails))) = Some ev)
    as [ev2 H2] by (eexists; vm_compute; reflexivity).
  exact (proj1 (@POST_ignores_type quiet_ext _ _ ev1 ev2 ada_store H1 H2 eq_refl)).
Defined.

(** The sample event, whose [external_id] is null and whose [banned] is
    false, written over the stored row of [user_1]: the row is the one a
    fresh insert makes, with no external id and not banned. *)
Lemma user_upsert_overwrites_witness :
  ∃ ev primaryEmail,
    @webhookSchema quiet_ext (Some (sample_event "user.updated" JNull two_emails)) = Some ev
    ∧ let u := userData (IncomingEvent.data ev) primaryEmail in
      (@user_upsert quiet_ext "user_1" u u (users ada_store)).1
      = (@user_upsert quiet_ext "user_1" u u ∅).1
      ∧ User.externalId (@user_upsert quiet_ext "user_1" u u (users ada_store)).1 = None
      ∧ User.banned (@user_upsert quiet_ext "user_1" u u (users ada_store)).1 = false.
Proof.
  set (rawBody := sample_event "user.updated" JNull two_emails).
  assert (∃ ev, @webhookSchema quiet_ext (Some rawBody) = Some ev
                ∧ RawUser.id (IncomingEvent.data ev) = "user_1"
                ∧ RawUser.external_id (IncomingEvent.data ev) = Null
                ∧ RawUser.banned (IncomingEvent.data ev) = false)
    as (ev & Hparse & Hid & Hext & Hbanned).
  { eexists. split; [vm_compute; reflexivity|]. repeat split. }
  assert (∃ primaryEmail : EmailAddress.t, True) as [primaryEmail _].
  { exists (EmailAddress.mk "" "" (Verification.mk "" "")). exact I. }
  assert (users ada_store !! RawUser.id (IncomingEvent.data ev) = Some ada_row) as Hold.
  { rewrite Hid. reflexivity. }
  destruct (@user_upsert_overwrites quiet_ext rawBody ev primaryEmail (users ada_store)
              ada_row (or_introl Hparse) Hold) as (Hupdate & Hcreate & _).
  exists ev, primaryEmail. split; [exact Hparse|]. cbv zeta.
  rewrite <- Hid. rewrite Hupdate, (Hcreate ∅ (lookup_empty _)). cbn.
  rewrite Hext, Hbanned. repeat split.
Defined.

(** The second handler, sent an event whose [first_name] is null for a
    user stored with a first name: the update leaves the stored name,
    and the row differs from the one the same event inserts into an
    empty store, whose first name is null. *)
Lemma POST2_update_keeps_stored_name :
  ∃ updated fresh,
    users (@POST2 quiet_ext (WithBody unnamed_event) ada_store).1.2 !! "user_1"
    = Some updated
    ∧ users (@POST2 quiet_ext (WithBody unnamed_event) empty_store).1.2 !! "user_1"
      = Some fresh
    ∧ status (@POST2 quiet_ext (WithBody unnamed_event) ada_store).1.1 = 200
    ∧ User.firstName updated = Some "Ada"
    ∧ User.firstName fresh = None
    ∧ updated ≠ fresh.
Proof.
  eexists _, _.
  split; [vm_compute; reflexivity|].
  split; [vm_compute; reflexivity|].
  repeat split. discriminate.
Qed.

(** ** The rest of the handlers on the sample payloads *)

Lemma grace_store_wf : store_wf grace_store.
Proof.
  split; intros k row; cbn.
  - by intros [<- <-]%lookup_singleton_Some.
  - by intros [<- <-]%lookup_singleton_Some.
Qed.

Lemma ada_store_wf : store_wf ada_store.
Proof.
  split; intros k row; cbn.
  - by intros [<- <-]%lookup_singleton_Some.
  - by rewrite lookup_empty.
Qed.

(** The third handler on a store that rejects the email upserts. *)
Lemma POST3_store_error_witness :
  ∃ r st' ops,
    @POST3 strict_ext (WithBody (sample_event "user.created" JNull two_emails)) empty_store
    = (r, st', ops)
    ∧ r = mkResponse 400
            (Stringify (JObj [ ("error", JStr "Foreign key constraint failed");
                               ("code", JStr "P2003") ])).
Proof.
  set (req := WithBody (sample_event "user.created" JNull two_emails)).
  assert (∃ st' ops,
            @POST3_try strict_ext req empty_store
            = Throw (PrismaClientKnownRequestError "P2003" "Foreign key constraint failed")
                st' ops) as (st' & ops & Hthrow).
  { eexists _, _. vm_compute. reflexivity. }
  destruct (@POST3_store_error_status strict_ext req empty_store _ st' ops
              (P2003_own _) Hthrow)
    as (Hrun & _).
  eexists _, st', ops. split; [exact Hrun|reflexivity].
Defined.

(** The sample event has both names in its account: both schemas parse
    it, and the first and third handler agree on it. *)
Lemma POST_POST3_agree_witness :
  (@POST quiet_ext (WithBody (sample_event "user.created" JNull two_emails)) grace_store).1.2
  = (@POST3 quiet_ext (WithBody (sample_event "user.created" JNull two_emails)) grace_store).1.2.
Proof.
  assert (∃ ev, @webhookSchema quiet_ext
                  (Some (sample_event "user.created" JNull two_emails)) = Some ev
                ∧ @webhookSchema3 quiet_ext
                    (Some (sample_event "user.created" JNull two_emails)) = Some ev)
    as (ev & H1 & H3) by (eexists; split; vm_compute; reflexivity).
  exact (proj1 (@POST_POST3_agree quiet_ext _ ev grace_store H1 H3)).
Defined.

Lemma POST3_idempotent_witness :
  let req := WithBody (sample_event "user.created" JNull repeated_emails) in
  let st1 := (@POST3 quiet_ext req foreign_email_store).1.2 in
  (@POST3 quiet_ext req st1).1.2 = st1.
Proof.
  cbv zeta.
  set (rawBody := sample_event "user.created" JNull repeated_emails).
  set (run1 := @POST3 quiet_ext (WithBody rawBody) foreign_email_store).
  set (run2 := @POST3 quiet_ext (WithBody rawBody) run1.1.2).
  assert (status run1.1.1 = 200) as H1 by (vm_compute; reflexivity).
  assert (status run2.1.1 = 200) as H2 by (vm_compute; reflexivity).
  exact (@POST3_idempotent quiet_ext rawBody foreign_email_store
           run1.1.1 run1.1.2 run1.2 run2.1.1 run2.1.2 run2.2
           quiet_codes_own (triple_eta run1) H1 (triple_eta run2) H2).
Defined.

(** The sample event, of [user_1], run on the store of [user_0]: her
    row and her email are as they were. *)
Lemma POST_leaves_other_rows_witness :
  let st' := (@POST quiet_ext (WithBody (sample_event "user.created" JNull two_emails))
                grace_store).1.2 in
  users st' !! "user_0" = Some grace_row
  ∧ userEmails st' !! "idn_9" = Some grace_email.
Proof.
  cbv zeta.
  set (rawBody := sample_event "user.created" JNull two_emails).
  set (run := @POST quiet_ext (WithBody rawBody) grace_store).
  assert (∃ ev, @webhookSchema quiet_ext (Some rawBody) = Some ev
                ∧ "user_0" ≠ RawUser.id (IncomingEvent.data ev)
                ∧ "idn_9" ∉ email_ids (RawUser.email_addresses (IncomingEvent.data ev)))
    as (ev & Hparse & Huser & Hemail).
  { eexists. split; [vm_compute; reflexivity|]. split; [done|].
    cbn. rewrite !not_elem_of_cons. repeat split; try done. apply not_elem_of_nil. }
  destruct (@POST_leaves_other_rows quiet_ext rawBody ev grace_store
              run.1.1 run.1.2 run.2 (or_introl (conj Hparse (triple_eta run))))
    as [Husers Hemails].
  split.
  - rewrite (Husers _ Huser). reflexivity.
  - rewrite (Hemails _ Hemail). reflexivity.
Defined.

(** The id [idn_1] sent twice, to a store that has it under [user_0]:
    the row ends with the second entry's address and status, and keeps
    its owner. *)
Lemma POST_stores_last_entry_witness :
  let st' := (@POST quiet_ext (WithBody (sample_event "user.created" JNull repeated_emails))
                foreign_email_store).1.2 in
  userEmails st' !! "idn_1"
  = Some {| UserEmail.id := "idn_1"; UserEmail.userId := "user_0";
            UserEmail.emailAddress := "second@example.com";
            UserEmail.verificationStatus := "verified";
            UserEmail.verificationStrategy := "from_oauth_google" |}.
Proof.
  cbv zeta.
  set (rawBody := sample_event "user.created" JNull repeated_emails).
  set (run := @POST quiet_ext (WithBody rawBody) foreign_email_store).
  assert (∃ ev first second,
            @webhookSchema quiet_ext (Some rawBody) = Some ev
            ∧ RawUser.email_addresses (IncomingEvent.data ev) = [first] ++ second :: []
            ∧ EmailAddress.id second = "idn_1"
            ∧ email_update second
              = {| UserEmailUpdate.emailAddress := "second@example.com";
                   UserEmailUpdate.verificationStatus := "verified";
                   UserEmailUpdate.verificationStrategy := "from_oauth_google" |})
    as (ev & first & second & Hparse & Hsplit & Hid & Hupdate).
  { eexists _, _, _. split; [vm_compute; reflexivity|]. repeat split. }
  assert (status run.1.1 = 200) as H200 by (vm_compute; reflexivity).
  assert (EmailAddress.id second ∉ email_ids []) as Hafter by (cbn; set_solver).
  pose proof (@POST_stores_last_entry quiet_ext rawBody ev foreign_email_store
                run.1.1 run.1.2 run.2 [first] second [] quiet_codes_own Hparse
                (triple_eta run) H200 Hsplit Hafter) as Hrow.
  rewrite Hid in Hrow. rewrite Hrow, Hupdate. reflexivity.
Defined.

(** The sample event: the stored row has the first entry's address and
    is verified, as that entry is. *)
Lemma POST_stores_primary_email_witness :
  let st' := (@POST quiet_ext (WithBody (sample_event "user.created" JNull two_emails))
                empty_store).1.2 in
  ∃ row, users st' !! "user_1" = Some row
         ∧ User.emailAddress row = "ada@example.com"
         ∧ User.emailVerified row = true.
Proof.
  cbv zeta.
  set (rawBody := sample_event "user.created" JNull two_emails).
  set (run := @POST quiet_ext (WithBody rawBody) empty_store).
  assert (∃ ev, @webhookSchema quiet_ext (Some rawBody) = Some ev
                ∧ RawUser.id (IncomingEvent.data ev) = "user_1"
                ∧ ∀ primaryEmail rest,
                    RawUser.email_addresses (IncomingEvent.data ev) = primaryEmail :: rest →
                    EmailAddress.email_address primaryEmail = "ada@example.com"
                    ∧ Verification.status (EmailAddress.verification primaryEmail) = "verified")
    as (ev & Hparse & Hid & Hfirst).
  { eexists. split; [vm_compute; reflexivity|]. split; [reflexivity|].
    cbn. by intros primaryEmail rest [= <- _]. }
  assert (status run.1.1 = 200) as H200 by (vm_compute; reflexivity).
  destruct (@POST_stores_primary_email quiet_ext rawBody ev empty_store
              run.1.1 run.1.2 run.2 quiet_codes_own Hparse (triple_eta run) H200)
    as (primaryEmail & rest & row & Hemails & Hrow & _ & Haddress & Hverified & _).
  destruct (Hfirst _ _ Hemails) as [Ha Hs].
  exists row. rewrite <- Hid. split; [exact Hrow|]. split; [congruence|].
  by apply Hverified.
Defined.


(** The second of two entries is not an address: 400, nothing written. *)
Lemma POST_rejects_malformed_email_witness :
  (@POST quiet_ext (WithBody (sample_event "user.created" JNull malformed_emails))
     grace_store).1.2 = grace_store
  ∧ status (@POST quiet_ext (WithBody (sample_event "user.created" JNull malformed_emails))
              grace_store).1.1 = 400.
Proof.
  destruct (@POST_rejects_malformed_email quiet_ext
              (sample_event "user.created" JNull malformed_emails) malformed_emails
              (sample_email "idn_2" "not an address" "unverified") "not an address"
              grace_store eq_refl) as [Hrun _].
  - unfold malformed_emails. set_solver.
  - reflexivity.
  - reflexivity.
  - rewrite Hrun. split; reflexivity.
Defined.

(** The second handler on a body with a null first name, on the store
    of [user_1]: one operation, on the user table. *)
Lemma POST2_single_write_witness :
  let run := @POST2 quiet_ext (WithBody unnamed_event) ada_store in
  userEmails run.1.2 = userEmails ada_store ∧ length run.2 = 1%nat.
Proof.
  cbv zeta.
  set (run := @POST2 quiet_ext (WithBody unnamed_event) ada_store).
  destruct (@POST2_single_write quiet_ext (WithBody unnamed_event) ada_store
              run.1.1 run.1.2 run.2 (triple_eta run)) as (Hemails & _ & _).
  split; [exact Hemails|]. vm_compute. reflexivity.
Defined.

Lemma POST2_requires_id_and_email_witness :
  ∃ r, @POST2 quiet_ext (WithBody empty_id_body) ada_store = (r, ada_store, [])
       ∧ status r = 400.
Proof.
  apply (@POST2_requires_id_and_email quiet_ext empty_id_body ada_store).
  left. reflexivity.
Defined.

Lemma POST2_type_confused_id_witness :
  @POST2 quiet_ext (WithBody numeric_id_body) ada_store
  = (mkResponse 500 (Text "Internal server error"), ada_store, []).
Proof.
  apply (@POST2_type_confused_id quiet_ext numeric_id_body (JNum 5) ada_store).
  - reflexivity.
  - reflexivity.
  - intros s. discriminate.
  - reflexivity.
Defined.

(** The second handler on a store that rejects the write as P2014: the
    first handler would answer 400, this one answers 500. *)
Lemma POST2_store_error_witness :
  @POST2 refusing_ext (WithBody unnamed_event) ada_store
  = (mkResponse 500 (Text "Internal server error"), ada_store,
     (@POST2 refusing_ext (WithBody unnamed_event) ada_store).2).
Proof.
  assert (∃ st' ops,
            @POST2_try refusing_ext (WithBody unnamed_event) ada_store
            = Throw (PrismaClientKnownRequestError "P2014" "Invalid relation") st' ops)
    as (st' & ops & Hthrow) by (eexists _, _; vm_compute; reflexivity).
  destruct (@POST2_store_error_status refusing_ext _ ada_store _ st' ops Hthrow)
    as (Hrun & -> & _).
  rewrite Hrun. reflexivity.
Defined.

Lemma POST2_idempotent_witness :
  let st1 := (@POST2 quiet_ext (WithBody unnamed_event) ada_store).1.2 in
  (@POST2 quiet_ext (WithBody unnamed_event) st1).1.2 = st1.
Proof.
  cbv zeta.
  set (run1 := @POST2 quiet_ext (WithBody unnamed_event) ada_store).
  set (run2 := @POST2 quiet_ext (WithBody unnamed_event) run1.1.2).
  assert (status run1.1.1 = 200) as H1 by (vm_compute; reflexivity).
  assert (status run2.1.1 = 200) as H2 by (vm_compute; reflexivity).
  exact (@POST2_idempotent quiet_ext unnamed_event ada_store
           run1.1.1 run1.1.2 run1.2 run2.1.1 run2.1.2 run2.2
           ada_store_wf (triple_eta run1) H1 (triple_eta run2) H2).
Defined.

Lemma POST2_stores_user_witness :
  let st' := (@POST2 quiet_ext (WithBody unnamed_event) grace_store).1.2 in
  (∃ row, users st' !! "user_1" = Some row ∧ User.emailAddress row = "ada@example.com")
  ∧ users st' !! "user_0" = Some grace_row.
Proof.
  cbv zeta.
  set (run := @POST2 quiet_ext (WithBody unnamed_event) grace_store).
  assert (status run.1.1 = 200) as H200 by (vm_compute; reflexivity).
  destruct (@POST2_stores_user quiet_ext unnamed_event grace_store
              run.1.1 run.1.2 run.2 grace_store_wf (triple_eta run) H200)
    as (id & emailAddress & row & Hid & Haddress & Hrow & _ & Hrowaddress & Hother).
  assert (id = "user_1") as -> by (cbv in Hid; congruence).
  assert (emailAddress = "ada@example.com") as -> by (cbv in Haddress; congruence).
  split; [by exists row|].
  rewrite Hother by done. reflexivity.
Defined.

Lemma handlers_keep_store_wf_witness :
  store_wf (@POST quiet_ext (WithBody (sample_event "user.created" JNull two_emails))
              grace_store).1.2.
Proof.
  exact (proj1 (@handlers_keep_store_wf quiet_ext
                  (WithBody (sample_event "user.created" JNull two_emails))
                  grace_store grace_store_wf)).
Defined.

(** The body of the second handler's example has no [type] and its
    [data] has no [banned]: the first handler answers 400 to it. *)
Lemma POST_requires_keys_witness :
  ∃ r, @POST quiet_ext (WithBody unnamed_event) grace_store = (r, grace_store, [])
       ∧ status r = 400.
Proof.
  apply (@POST_requires_keys quiet_ext unnamed_event "banned" grace_store).
  right. right. split; [|reflexivity].
  unfold required_keys. rewrite !elem_of_cons. tauto.
Defined.

(** The sample event on a store whose rejection carries the code
    "constructor": the lookup of line 152 finds the inherited value, and
    the handler answers 200 although its one operation was rejected and
    no row was written. *)
Lemma POST_inherited_code_run :
  let run := @POST (sample_ext inherited_fault)
               (WithBody (sample_event "user.created" JNull two_emails)) empty_store in
  run.1.1 = mkResponse 200
              (Stringify (JObj [ ("code", JStr "constructor");
                                 ("details", JStr "rejected") ]))
  ∧ run.1.2 = empty_store
  ∧ length run.2 = 1%nat.
Proof. cbv zeta. repeat split; vm_compute; reflexivity. Qed.
